(** * PDF object hasher: ingestion and deduplication pipeline

    A shallow embedding of [src/windows/pdf_object_hasher.py].

    Modelling conventions, used throughout:
    - a Python [str] is a [string]; a character is a code point below 256;
      file contents (text and extracted object bytes alike) are [string]s;
    - a text file opened for reading goes through Python's universal
      newline translation ([universal_newlines]); writes are modelled with
      the POSIX line separator (no translation);
    - a file that may be absent is an [option string]; a directory is a
      [gmap] from entry names to contents; paths follow the POSIX
      conventions, and every operation on the program's own files and
      directories succeeds;
    - external collaborators (hashlib, mutool, pdfsig, exiftool, the font
      tools, the clock) are fields of the record [externals];
    - a Python exception is the outcome [Raised]; state changes made before
      the exception are kept. *)

From stdpp Require Import gmap strings list fin_maps pretty sorting.
From Stdlib Require Import Ascii.

Local Open Scope char_scope.

(** ** Python text primitives *)

Module Py.

Definition LF : ascii := "010".
Definition CR : ascii := "013".
Definition TAB : ascii := "009".

(** [str.isspace] on one character (code points below 256); the same set
    is what [\s] matches in a [str] pattern. *)
Definition isspace (a : ascii) : bool :=
  match a with
  | "009" | "010" | "011" | "012" | "013"
  | "028" | "029" | "030" | "031" | " " | "133" | "160" => true
  | _ => false
  end.

(** [s.startswith(p)] *)
Definition startswith (p s : string) : bool := String.prefix p s.

(** [s.split(sep)] for a one-character separator: never the empty list. *)
Fixpoint split (sep : ascii) (s : string) : list string :=
  match s with
  | EmptyString => [EmptyString]
  | String a s' =>
      if Ascii.eqb a sep then EmptyString :: split sep s'
      else match split sep s' with
           | [] => [String a EmptyString]
           | h :: t => String a h :: t
           end
  end.

(** [sep.join(parts)] *)
Fixpoint join (sep : string) (parts : list string) : string :=
  match parts with
  | [] => EmptyString
  | [p] => p
  | p :: ps => p +:+ sep +:+ join sep ps
  end.

(** Universal newline translation of a file opened in text mode for
    reading: CR LF and a lone CR both become LF. *)
Fixpoint universal_newlines (s : string) : string :=
  match s with
  | EmptyString => EmptyString
  | String a s' =>
      if Ascii.eqb a CR then
        match s' with
        | String b _ =>
            if Ascii.eqb b LF then universal_newlines s'
            else String LF (universal_newlines s')
        | EmptyString => String LF EmptyString
        end
      else String a (universal_newlines s')
  end.

(** The lines a file iterator yields from already translated text: each
    keeps its terminating LF; a last line without LF is yielded when it is
    not empty. *)
Fixpoint lines (s : string) : list string :=
  match s with
  | EmptyString => []
  | String a s' =>
      if Ascii.eqb a LF then String LF EmptyString :: lines s'
      else match lines s' with
           | [] => [String a EmptyString]
           | h :: t => String a h :: t
           end
  end.

(** [for line in f] on a file opened with [open("r")]. *)
Definition readlines (content : string) : list string :=
  lines (universal_newlines content).

(** [line.rstrip("\n")]: every trailing LF is removed. *)
Fixpoint rstrip_nl (s : string) : string :=
  match s with
  | EmptyString => EmptyString
  | String a s' =>
      match rstrip_nl s' with
      | EmptyString => if Ascii.eqb a LF then EmptyString else String a EmptyString
      | r => String a r
      end
  end.

(** [s.lstrip()], [s.rstrip()], [s.strip()] on white space. *)
Fixpoint lstrip (s : string) : string :=
  match s with
  | EmptyString => EmptyString
  | String a s' => if isspace a then lstrip s' else s
  end.

Fixpoint rstrip (s : string) : string :=
  match s with
  | EmptyString => EmptyString
  | String a s' =>
      match rstrip s' with
      | EmptyString => if isspace a then EmptyString else String a EmptyString
      | r => String a r
      end
  end.

Definition strip (s : string) : string := rstrip (lstrip s).

(** [str.splitlines()] line boundaries (code points below 256): LF, CR,
    CR LF, VT, FF, FS, GS, RS, NEL. No boundary is kept. *)
Definition is_linebreak (a : ascii) : bool :=
  match a with
  | "010" | "011" | "012" | "013" | "028" | "029" | "030" | "133" => true
  | _ => false
  end.

Fixpoint splitlines_aux (cur : string) (s : string) : list string :=
  match s with
  | EmptyString =>
      match cur with EmptyString => [] | _ => [String.rev cur] end
  | String a s' =>
      if is_linebreak a then
        String.rev cur ::
          match s' with
          | String b s'' =>
              if Ascii.eqb a CR && Ascii.eqb b LF
              then splitlines_aux EmptyString s''
              else splitlines_aux EmptyString s'
          | EmptyString => []
          end
      else splitlines_aux (String a cur) s'
  end.

Definition splitlines (s : string) : list string :=
  splitlines_aux EmptyString s.

(** [s.lower()] on one character, code points below 256. *)
Definition lower_char (a : ascii) : ascii :=
  let n := nat_of_ascii a in
  if ((65 <=? n) && (n <=? 90))%nat then ascii_of_nat (n + 32)%nat
  else if ((192 <=? n) && (n <=? 222) && negb (n =? 215))%nat
       then ascii_of_nat (n + 32)%nat
  else a.

Fixpoint lower (s : string) : string :=
  match s with
  | EmptyString => EmptyString
  | String a s' => String (lower_char a) (lower s')
  end.

(** [s.replace(old, new)] for one-character [old] and [new]. *)
Fixpoint replace_char (old new : ascii) (s : string) : string :=
  match s with
  | EmptyString => EmptyString
  | String a s' =>
      String (if Ascii.eqb a old then new else a) (replace_char old new s')
  end.

(** [os.path.basename] (POSIX): what follows the last slash. *)
Definition basename (s : string) : string :=
  List.last (split "/" s) EmptyString.

(** The text from the last dot on, when there is a dot. *)
Fixpoint from_last_dot (s : string) : option string :=
  match s with
  | EmptyString => None
  | String a s' =>
      match from_last_dot s' with
      | Some r => Some r
      | None => if Ascii.eqb a "." then Some s else None
      end
  end.

(** [PurePath.suffix] of a file name (Python up to 3.13): with
    [i = name.rfind(".")], it is [name[i:]] when [0 < i < len(name) - 1],
    else the empty string. *)
Definition suffix (name : string) : string :=
  match name with
  | EmptyString => EmptyString
  | String _ s' =>
      match from_last_dot s' with
      | Some r => if (1 <? String.length r)%nat then r else EmptyString
      | None => EmptyString
      end
  end.

End Py.

Local Close Scope char_scope.

(** ** The regular expressions of the program

    Each pattern of the source is a fixed sequence of one-character tests,
    followed by the end anchor or by a greedy capture of the rest of the
    line and the end anchor. *)

Module Re.

Definition atom := ascii → bool.

Definition lit (c : ascii) : atom := Ascii.eqb c.
Definition icase (lo up : ascii) : atom := λ a, Ascii.eqb a lo || Ascii.eqb a up.
Definition space : atom := Py.isspace.

Fixpoint lits (s : string) : list atom :=
  match s with
  | EmptyString => []
  | String c s' => lit c :: lits s'
  end.

(** Match the atoms at the start of [s]; the result is what follows. *)
Fixpoint match_here (p : list atom) (s : string) : option string :=
  match p with
  | [] => Some s
  | t :: p' =>
      match s with
      | String a s' => if t a then match_here p' s' else None
      | EmptyString => None
      end
  end.

(** [$] without [re.MULTILINE]: the end of the text, or just before a
    line feed that ends the text. *)
Definition at_dollar (rest : string) : bool :=
  match rest with
  | EmptyString => true
  | String a EmptyString => Ascii.eqb a Py.LF
  | _ => false
  end.

(** The greedy capture followed by the end anchor, at the start of [s]: the
    dot matches anything but a line feed, so the group is the text up to
    the end, or up to a final line feed. *)
Fixpoint dot_star_dollar (s : string) : option string :=
  match s with
  | EmptyString => Some EmptyString
  | String a s' =>
      if Ascii.eqb a Py.LF then
        match s' with EmptyString => Some EmptyString | _ => None end
      else String a <$> dot_star_dollar s'
  end.

(** [search] for atoms, capture, end anchor: group 1 of the leftmost match. *)
Fixpoint search_group (p : list atom) (s : string) : option string :=
  match match_here p s ≫= dot_star_dollar with
  | Some g => Some g
  | None =>
      match s with
      | EmptyString => None
      | String _ s' => search_group p s'
      end
  end.

(** [re.compile(atoms + "$").search(s)] as a truth value. *)
Fixpoint search_dollar (p : list atom) (s : string) : bool :=
  match match_here p s with
  | Some rest => at_dollar rest
  | None => false
  end
  || match s with
     | EmptyString => false
     | String _ s' => search_dollar p s'
     end.

(** [re.compile(atoms + "$").sub("", s)]: the leftmost match is cut out;
    what follows it is at most one line feed, where no further match of a
    non-empty pattern can start. *)
Fixpoint sub_dollar (p : list atom) (s : string) : string :=
  match match_here p s with
  | Some rest =>
      if at_dollar rest then rest
      else match s with
           | EmptyString => EmptyString
           | String a s' => String a (sub_dollar p s')
           end
  | None =>
      match s with
      | EmptyString => EmptyString
      | String a s' => String a (sub_dollar p s')
      end
  end.

End Re.

(** ** Constants of the program *)

Definition T : string := String Py.TAB EmptyString.
Definition NL : string := String Py.LF EmptyString.

Definition OBJECTS_HEADER : string :=
  "Case Number" +:+ T +:+ "Filing Type" +:+ T +:+ "Filing Date" +:+ T +:+
  "SHA256 Hash Value" +:+ T +:+ "Pdf File Name" +:+ T +:+
  "Pdf Internal Object Path" +:+ T +:+ "Object Type" +:+ T +:+ "Font Name" +:+ T +:+
  "Sig #1 Common Name" +:+ T +:+ "Sig #2 Common Name" +:+ T +:+ "Author" +:+ T +:+
  "Creator" +:+ T +:+ "Sig #3 Common Name" +:+ T +:+ "Sig #4 Common Name" +:+ T +:+
  "Sig #1 Signing Time" +:+ T +:+ "Sig #2 Signing Time" +:+ T +:+
  "Sig #3 Signing Time" +:+ T +:+ "Sig #4 Signing Time" +:+ T +:+
  "Sig #1 Byte Ranges" +:+ T +:+ "Sig #2 Byte Ranges" +:+ T +:+
  "Sig #3 Byte Ranges" +:+ T +:+ "Sig #4 Byte Ranges".

Definition OLD_HEADER_5 : string :=
  "SHA256 Hash Value" +:+ T +:+ "Pdf File Name" +:+ T +:+
  "Pdf Internal Object Path" +:+ T +:+ "Object Type" +:+ T +:+ "Font Name".

(** [PDF_EXT_RE = re.compile(r"\.pdf$", re.IGNORECASE)] *)
Definition PDF_EXT_RE : list Re.atom :=
  [Re.lit "."; Re.icase "p" "P"; Re.icase "d" "D"; Re.icase "f" "F"]%char.

(** ** File-name parsing *)

(** [safe_name] *)
Definition safe_name (pdf_name : string) : string :=
  let base := Re.sub_dollar PDF_EXT_RE pdf_name in
  let base := Py.basename base in
  Py.replace_char "/" "_" (Py.replace_char " " "_" base).

(** [parse_mcro_fields] *)
Definition parse_mcro_fields (pdf_name : string) : string * string * string :=
  if negb (Py.startswith "MCRO_" pdf_name) then ("", "", "")
  else
    let noext := Re.sub_dollar PDF_EXT_RE pdf_name in
    let parts := Py.split "_" noext in
    if (4 <=? length parts)%nat
    then (nth 1 parts "", nth 2 parts "", nth 3 parts "")
    else ("", "", "").


(** ** Results of external commands and the external collaborators *)

(** What [run_cmd] returns: the return code and the standard output. *)
Record completed := Completed { returncode : Z; stdout : string }.

(** A document file as one look at it finds it. *)
Record file := File { bytes : string; mtime : Z }.

(** A document path over time: what the [t]-th look finds there ([None]:
    no such file). Each [time.sleep] of the settling loop moves to the next
    index. *)
Definition document := nat → option file.

Record externals := Externals {
  (** [hashlib.sha256(b).hexdigest()] *)
  sha256_hexdigest : string → string;
  (** return code of [mutool extract <pdf>] run in the current directory *)
  mutool_cwd : string → Z;
  (** [mutool extract <pdf>] run inside the output directory: the files it
      leaves there and whether it succeeded *)
  mutool_outdir : string → gmap string string * bool;
  (** [pdfsig <pdf>] and [exiftool -s -s -s -Author -Creator <pdf>] *)
  pdfsig : string → completed;
  exiftool : string → completed;
  (** [otfinfo -i <obj>] and [fc-scan --format ... <obj>] *)
  otfinfo : string → completed;
  fc_scan : string → completed;
  (** [datetime.strptime(s, fmt).strftime("%Y-%m-%d %H:%M:%S")]; [None]
      when parsing raises *)
  strptime_iso : string → string → option string;
  (** [datetime.utcnow().strftime("%Y-%m-%dT%H:%M:%SZ")] *)
  utcnow_iso : string;
  (** reading the extracted object at this relative path raises [OSError] *)
  unreadable : string → bool
}.

(** ** Signature and metadata parsing *)

(** [SIG_BLOCK_RE = re.compile(r"^Signature\s#([1-4]):")], used with
    [match]: the captured block number. *)
Definition SIG_BLOCK_RE (s : string) : option nat :=
  match Re.match_here (Re.lits "Signature" ++ [Re.space; Re.lit "#"%char]) s with
  | Some (String d (String c _)) =>
      if Ascii.eqb c ":" then
        match d with
        | "1"%char => Some 1 | "2"%char => Some 2
        | "3"%char => Some 3 | "4"%char => Some 4
        | _ => None
        end
      else None
  | _ => None
  end.

(** The literal parts of [CN_RE], [TIME_RE] and [RANGE_RE]; each is
    followed by the capture of the rest of the line. *)
Definition CN_RE : list Re.atom :=
  Re.lits "Signer" ++ [Re.space] ++ Re.lits "Certificate" ++ [Re.space] ++
  Re.lits "Common" ++ [Re.space] ++ Re.lits "Name:" ++ [Re.space].
Definition TIME_RE : list Re.atom :=
  Re.lits "Signing" ++ [Re.space] ++ Re.lits "Time:" ++ [Re.space].
Definition RANGE_RE : list Re.atom :=
  Re.lits "Signed" ++ [Re.space] ++ Re.lits "Ranges:" ++ [Re.space].

(** [s.split()]: the maximal runs of characters that are not white space. *)
Fixpoint split_ws_aux (cur : string) (s : string) : list string :=
  match s with
  | EmptyString =>
      match cur with EmptyString => [] | _ => [String.rev cur] end
  | String a s' =>
      if Py.isspace a then
        match cur with
        | EmptyString => split_ws_aux EmptyString s'
        | _ => String.rev cur :: split_ws_aux EmptyString s'
        end
      else split_ws_aux (String a cur) s'
  end.
Definition split_ws (s : string) : list string := split_ws_aux EmptyString s.

(** [normalize_sig_time] *)
Definition normalize_sig_time (E : externals) (raw : string) : string :=
  let s := Py.strip raw in
  match strptime_iso E s "%b %d %Y %H:%M:%S" with
  | Some r => r
  | None =>
  match strptime_iso E s "%b %d %Y %H:%M" with
  | Some r => r
  | None =>
  match strptime_iso E s "%c" with
  | Some r => r
  | None =>
      let tokens := split_ws s in
      if (5 <=? length tokens)%nat then
        match strptime_iso E (Py.join " " (take 5 tokens)) "%b %d %Y %H:%M:%S" with
        | Some r => r
        | None => s
        end
      else s
  end end end.

Definition sig_key (cur : nat) (slot : string) : string :=
  "SIG" +:+ pretty cur +:+ "_" +:+ slot.

Definition empty_sigs : gmap string string :=
  list_to_map
    [("SIG1_CN", ""); ("SIG2_CN", ""); ("SIG3_CN", ""); ("SIG4_CN", "");
     ("SIG1_TIME", ""); ("SIG2_TIME", ""); ("SIG3_TIME", ""); ("SIG4_TIME", "");
     ("SIG1_RANGE", ""); ("SIG2_RANGE", ""); ("SIG3_RANGE", ""); ("SIG4_RANGE", "")].

(** One iteration of the loop over the lines of the [pdfsig] output: the
    state is the current block number and the dictionary. *)
Definition parse_pdfsig_line (E : externals)
    (st : nat * gmap string string) (line : string) : nat * gmap string string :=
  let '(cur, sigs) := st in
  match SIG_BLOCK_RE (Py.strip line) with
  | Some n => (n, sigs)
  | None =>
      if negb ((1 <=? cur)%nat && (cur <=? 4)%nat) then (cur, sigs)
      else
        match Re.search_group CN_RE line with
        | Some g => (cur, <[sig_key cur "CN" := Py.strip g]> sigs)
        | None =>
        match Re.search_group TIME_RE line with
        | Some g => (cur, <[sig_key cur "TIME" := normalize_sig_time E g]> sigs)
        | None =>
        match Re.search_group RANGE_RE line with
        | Some g => (cur, <[sig_key cur "RANGE" := Py.strip g]> sigs)
        | None => (cur, sigs)
        end end end
  end.

(** [parse_pdfsig], from the result of running [pdfsig]. *)
Definition parse_pdfsig_output (E : externals) (r : completed) : gmap string string :=
  if negb (returncode r =? 0)%Z || String.eqb (stdout r) "" then empty_sigs
  else (fold_left (parse_pdfsig_line E) (Py.splitlines (stdout r)) (0, empty_sigs)).2.

Definition parse_pdfsig (E : externals) (pdf_bytes : string) : gmap string string :=
  parse_pdfsig_output E (pdfsig E pdf_bytes).

(** [get_author_creator] *)
Definition get_author_creator (E : externals) (pdf_bytes : string) : string * string :=
  let r := exiftool E pdf_bytes in
  if negb (returncode r =? 0)%Z then ("", "")
  else
    fold_left
      (λ (ac : string * string) (line : string),
         let line := Py.strip line in
         if String.eqb line "" then ac
         else if String.eqb ac.1 "" then (line, ac.2)
         else if String.eqb ac.2 "" then (ac.1, line)
         else ac)
      (Py.splitlines (stdout r)) ("", "").

(** [per_pdf_sig_and_meta] *)
Definition per_pdf_sig_and_meta (E : externals) (pdf_bytes : string) : gmap string string :=
  let sig := parse_pdfsig E pdf_bytes in
  let '(author, creator) := get_author_creator E pdf_bytes in
  <["CREATOR" := creator]> (<["AUTHOR" := author]> sig).

(** ** Font names *)

Definition FONT_EXTS : list string :=
  [".ttf"; ".otf"; ".ttc"; ".woff"; ".woff2"; ".pfb"; ".pfa"].

(** [line.split(":", 1)[1]] for a line that contains a colon. *)
Fixpoint after_first_colon (s : string) : string :=
  match s with
  | EmptyString => EmptyString
  | String a s' => if Ascii.eqb a ":" then s' else after_first_colon s'
  end.

(** [get_font_name] *)
Definition get_font_name (E : externals) (obj_name obj_bytes : string) : string :=
  let ext := Py.lower (Py.suffix obj_name) in
  if negb (bool_decide (ext ∈ FONT_EXTS)) then ""
  else
    let r := otfinfo E obj_bytes in
    match
      (if (returncode r =? 0)%Z
       then List.find (Py.startswith "Full name:") (Py.splitlines (stdout r))
       else None)
    with
    | Some line => Py.strip (after_first_colon line)
    | None =>
        let r := fc_scan E obj_bytes in
        if (returncode r =? 0)%Z && negb (String.eqb (Py.strip (stdout r)) "")
        then Py.strip (hd "" (Py.splitlines (stdout r)))
        else ""
    end.

(** ** The persisted state *)

(** The files and directories under the working directory that the program
    reads and writes. Directories always exist ([ensure_layout] creates
    them with [mkdir(parents=True, exist_ok=True)]). The tree under
    [pdf-objects] is one directory of files per sanitized document name
    (the extractor writes no sub-directories). This holds of the names
    that name a directory of their own; for the sanitized names that are
    empty, [.] or [..], which [pathlib] resolves to [pdf-objects] itself or
    to its parent, the code walks the directories of other documents, and
    the statements about the files of an output directory exclude them
    ([own_directory]). *)
Record world := World {
  objects_tsv : option string;
  objects_tsv_tmp : option string;
  hash_count_tsv : option string;
  processed_tsv : option string;
  inflight_dir : gmap string string;
  pdf_objects : gmap string (gmap string string);
  hashed_objects : gmap string string
}.

Definition set_objects_tsv (v : option string) (w : world) : world :=
  World v (objects_tsv_tmp w) (hash_count_tsv w) (processed_tsv w)
        (inflight_dir w) (pdf_objects w) (hashed_objects w).
Definition set_objects_tsv_tmp (v : option string) (w : world) : world :=
  World (objects_tsv w) v (hash_count_tsv w) (processed_tsv w)
        (inflight_dir w) (pdf_objects w) (hashed_objects w).
Definition set_hash_count_tsv (v : option string) (w : world) : world :=
  World (objects_tsv w) (objects_tsv_tmp w) v (processed_tsv w)
        (inflight_dir w) (pdf_objects w) (hashed_objects w).
Definition set_processed_tsv (v : option string) (w : world) : world :=
  World (objects_tsv w) (objects_tsv_tmp w) (hash_count_tsv w) v
        (inflight_dir w) (pdf_objects w) (hashed_objects w).
Definition set_inflight_dir (v : gmap string string) (w : world) : world :=
  World (objects_tsv w) (objects_tsv_tmp w) (hash_count_tsv w) (processed_tsv w)
        v (pdf_objects w) (hashed_objects w).
Definition set_pdf_objects (v : gmap string (gmap string string)) (w : world) : world :=
  World (objects_tsv w) (objects_tsv_tmp w) (hash_count_tsv w) (processed_tsv w)
        (inflight_dir w) v (hashed_objects w).
Definition set_hashed_objects (v : gmap string string) (w : world) : world :=
  World (objects_tsv w) (objects_tsv_tmp w) (hash_count_tsv w) (processed_tsv w)
        (inflight_dir w) (pdf_objects w) v.

(** [open(path, "a").write(text)]: the file is created when absent. *)
Definition append_text (f : option string) (text : string) : option string :=
  Some (default "" f +:+ text).

(** ** Exceptions and state: the monad of the pipeline *)

Inductive result (A : Type) : Type :=
  | Ok (a : A)
  | Raised (e : string).
Arguments Ok {A} a.
Arguments Raised {A} e.

Definition M (A : Type) : Type := world → world * result A.

Definition raise {A} (e : string) : M A := λ w, (w, Raised e).
Definition get_world : M world := λ w, (w, Ok w).
Definition modify (f : world → world) : M unit := λ w, (f w, Ok tt).

Global Instance M_ret : MRet M := λ A a w, (w, Ok a).
Global Instance M_bind : MBind M := λ A B k m w,
  match m w with
  | (w', Ok a) => k a w'
  | (w', Raised e) => (w', Raised e)
  end.

(** [try: body finally: fin], for a [fin] that cannot raise. *)
Definition try_finally {A} (body : M A) (fin : world → world) : M A :=
  λ w, let '(w', r) := body w in (fin w', r).

(** [for x in l: body(x)] *)
Fixpoint for_each {A} (l : list A) (body : A → M unit) : M unit :=
  match l with
  | [] => mret tt
  | x :: l' => body x ;; for_each l' body
  end.

(** ** Schema migration: [ensure_layout] *)

Definition tabs (n : nat) : string := Py.join "" (replicate n T).

(** The body of the migration loop: one old row is written out between
    three and fourteen tab characters. *)
Definition migrate_row (line : string) : string :=
  tabs 3 +:+ Py.rstrip_nl line +:+ tabs 14 +:+ NL.

(** What the migration writes to the temporary file, write by write. *)
Definition migration_text (content : string) : string :=
  fold_left (λ out line, out +:+ migrate_row line)
            (tail (Py.readlines content)) (OBJECTS_HEADER +:+ NL).

(** [tmp.replace(OBJECTS_TSV)]: one rename. *)
Definition replace_objects_tsv (w : world) : world :=
  set_objects_tsv_tmp None (set_objects_tsv (objects_tsv_tmp w) w).

Definition ensure_objects_tsv (w : world) : world :=
  match objects_tsv w with
  | None => set_objects_tsv (Some (OBJECTS_HEADER +:+ NL)) w
  | Some content =>
      if String.eqb content "" then set_objects_tsv (Some (OBJECTS_HEADER +:+ NL)) w
      else
        let first := Py.rstrip_nl (hd "" (Py.readlines content)) in
        if String.eqb first OLD_HEADER_5 then
          replace_objects_tsv (set_objects_tsv_tmp (Some (migration_text content)) w)
        else w
  end.

Definition ensure_layout (w : world) : world :=
  let w := ensure_objects_tsv w in
  let w := match hash_count_tsv w with
           | None => set_hash_count_tsv (Some "") w
           | Some _ => w
           end in
  match processed_tsv w with
  | None => set_processed_tsv (Some "") w
  | Some _ => w
  end.

(** ** The idempotency tracker *)

Definition lock_name (sha : string) : string := sha +:+ ".lock".

(** The loop body of [load_processed_shas]. An empty line is skipped; so
    is a line whose first field is empty. *)
Definition load_line (shas : gset string) (line : string) : gset string :=
  let line := Py.rstrip_nl line in
  if String.eqb line "" then shas
  else
    match Py.split Py.TAB line with
    | p0 :: _ => if String.eqb p0 "" then shas else {[p0]} ∪ shas
    | [] => shas
    end.

(** [load_processed_shas] *)
Definition load_processed_shas (w : world) : gset string :=
  match processed_tsv w with
  | None => ∅
  | Some content => fold_left load_line (Py.readlines content) ∅
  end.

(** [has_inflight], [mark_inflight], [clear_inflight] *)
Definition has_inflight (w : world) (sha : string) : bool :=
  bool_decide (is_Some (inflight_dir w !! lock_name sha)).

Definition mark_inflight (E : externals) (sha : string) (w : world) : world :=
  set_inflight_dir (<[lock_name sha := utcnow_iso E]> (inflight_dir w)) w.

Definition clear_inflight (sha : string) (w : world) : world :=
  set_inflight_dir (delete (lock_name sha) (inflight_dir w)) w.

(** [record_processed] *)
Definition processed_record (E : externals)
    (sha pdf_name : string) (bytes_size : nat) (mtime_epoch : Z) : string :=
  sha +:+ T +:+ pdf_name +:+ T +:+ pretty bytes_size +:+ T +:+
  pretty mtime_epoch +:+ T +:+ utcnow_iso E +:+ NL.

Definition record_processed (E : externals)
    (sha pdf_name : string) (bytes_size : nat) (mtime_epoch : Z) (w : world) : world :=
  set_processed_tsv
    (append_text (processed_tsv w)
                 (processed_record E sha pdf_name bytes_size mtime_epoch)) w.

(** ** The dedup store *)

(** [dest_dir.glob(sha + ".*")]: the entries whose name starts with the
    hash and a dot (a hex digest holds no glob metacharacter). *)
Definition glob_sha_dot (sha : string) (dest_dir : gmap string string) : list string :=
  filter (λ n, Py.startswith (sha +:+ ".") n = true) (map_to_list dest_dir).*1.

(** The extension an object is stored and recorded under. *)
Definition capped_ext (ext : string) : string :=
  if (11 <? String.length ext)%nat then "" else ext.

(** [copy_object_if_new_by_hash]; [dest.with_suffix(dest.suffix + ".tmp")]
    is the destination name followed by [.tmp]. *)
Definition copy_object_if_new_by_hash
    (src_name src_bytes sha : string) (dest_dir : gmap string string)
    : gmap string string :=
  if bool_decide (is_Some (dest_dir !! sha)) then dest_dir
  else
    match glob_sha_dot sha dest_dir with
    | _ :: _ => dest_dir
    | [] =>
        let ext := capped_ext (Py.lower (Py.suffix src_name)) in
        let dest := sha +:+ ext in
        let tmp := dest +:+ ".tmp" in
        (* shutil.copy2(src, tmp) *)
        let d := <[tmp := src_bytes]> dest_dir in
        (* tmp.replace(dest) *)
        match d !! tmp with
        | Some b => <[dest := b]> (delete tmp d)
        | None => d
        end
    end.

(** ** The hash-count aggregator *)

(** The loop body of [update_hash_counts]: one ledger line. *)
Definition count_line (counts : gmap string nat) (line : string) : gmap string nat :=
  let parts := Py.split Py.TAB (Py.rstrip_nl line) in
  let h := nth 3 parts "" in
  if (4 <=? length parts)%nat && negb (String.eqb h "")
  then <[h := S (default 0 (counts !! h))]> counts
  else counts.

(** The sort key [(-kv[1], kv[0])] and the order of such tuples. *)
Definition count_key (kv : string * nat) : Z * string := (- Z.of_nat kv.2, kv.1)%Z.

Definition key_le (a b : Z * string) : Prop :=
  (a.1 < b.1)%Z ∨ (a.1 = b.1 ∧ String.le a.2 b.2).

Definition row_le (x y : string * nat) : Prop := key_le (count_key x) (count_key y).

Global Instance row_le_dec : RelDecision row_le.
Proof. intros x y. unfold row_le, key_le. apply _. Defined.

(** The rows [update_hash_counts] writes, from the ledger text. The
    counter's items are pairwise different in their hash, so the order they
    are taken in does not show in the sorted result. *)
Definition hash_count_rows (content : string) : list (string * nat) :=
  let counts := fold_left count_line (tail (Py.readlines content)) ∅ in
  merge_sort row_le (map_to_list counts).

Definition hash_count_line (kv : string * nat) : string :=
  kv.1 +:+ T +:+ pretty kv.2 +:+ NL.

Definition hash_count_text (rows : list (string * nat)) : string :=
  fold_left (λ out kv, out +:+ hash_count_line kv) rows "".

(** [update_hash_counts] *)
Definition update_hash_counts (w : world) : world :=
  match objects_tsv w with
  | None => set_hash_count_tsv (Some "") w
  | Some content =>
      set_hash_count_tsv (Some (hash_count_text (hash_count_rows content))) w
  end.

(** ** Settling *)

(** The loop of [wait_for_quiet_file], from look number [t] on with [n]
    tries left: the result is the look at which the function returns (a
    sleep follows every look but the one that finds the size unchanged). *)
Fixpoint wait_loop (doc : document) (t : nat) (last : Z) (n : nat) : nat :=
  match n with
  | 0 => t
  | S n' =>
      match doc t with
      | None => wait_loop doc (S t) last n'
      | Some f =>
          let size := Z.of_nat (String.length (bytes f)) in
          if (size =? last)%Z then t
          else wait_loop doc (S t) size n'
      end
  end.

(** [wait_for_quiet_file(path, tries)]; it returns nothing, so its caller
    cannot tell a quiet file from exhausted tries. *)
Definition wait_for_quiet_file (doc : document) (tries : nat) : nat :=
  wait_loop doc 0 (-1) tries.

Definition DEFAULT_TRIES : nat := 10.

(** ** The ingestion orchestrator *)

Definition STAMP : string := ".processed.sha".

Definition outdir_of (w : world) (safe : string) : gmap string string :=
  default ∅ (pdf_objects w !! safe).

Definition set_outdir (safe : string) (d : gmap string string) (w : world) : world :=
  set_pdf_objects (<[safe := d]> (pdf_objects w)) w.

(** [extract_with_mutool]: the first run, in the current directory, leaves
    nothing in the output directory; only when it fails is the tool run
    again inside the output directory. *)
Definition extract_with_mutool (E : externals) (pdf_bytes safe : string) : M unit :=
  modify (λ w, set_outdir safe (outdir_of w safe) w);;
  if negb (mutool_cwd E pdf_bytes =? 0)%Z then
    let '(written, ok) := mutool_outdir E pdf_bytes in
    modify (λ w, set_outdir safe (written ∪ outdir_of w safe) w);;
    if ok then mret tt else raise "RuntimeError"
  else mret tt.

(** The ledger row of one extracted object. *)
Definition ledger_row (case_num filing_type filing_date h pdf_name rel ext font_name : string)
    (sigmeta : gmap string string) : list string :=
  let g k := default "" (sigmeta !! k) in
  [case_num; filing_type; filing_date;
   h; pdf_name; rel; ext; font_name;
   g "SIG1_CN"; g "SIG2_CN"; g "AUTHOR"; g "CREATOR";
   g "SIG3_CN"; g "SIG4_CN";
   g "SIG1_TIME"; g "SIG2_TIME"; g "SIG3_TIME"; g "SIG4_TIME";
   g "SIG1_RANGE"; g "SIG2_RANGE"; g "SIG3_RANGE"; g "SIG4_RANGE"].

(** The body of the loop over the extracted files. *)
Definition ingest_object (E : externals) (pdf_name safe : string)
    (fields : string * string * string) (sigmeta : gmap string string)
    (obj : string * string) : M unit :=
  let '(fn, obj_bytes) := obj in
  if String.eqb fn STAMP then mret tt
  else
    let rel := safe +:+ "/" +:+ fn in
    if unreadable E rel then raise "OSError"
    else
      let h := sha256_hexdigest E obj_bytes in
      let ext := if String.eqb (Py.suffix fn) "" then "" else Py.lower (Py.suffix fn) in
      let ext := capped_ext ext in
      let font_name :=
        if bool_decide (ext ∈ FONT_EXTS) then get_font_name E fn obj_bytes else "" in
      let '(case_num, filing_type, filing_date) := fields in
      let row := ledger_row case_num filing_type filing_date
                            h pdf_name rel ext font_name sigmeta in
      modify (λ w, set_objects_tsv
                     (append_text (objects_tsv w) (Py.join T row +:+ NL)) w);;
      modify (λ w, set_hashed_objects
                     (copy_object_if_new_by_hash fn obj_bytes h (hashed_objects w)) w).

(** The count of rows for this document that closes the run: it opens the
    ledger and skips its header, which raises when there is none. *)
Definition report_rows : M unit :=
  w ← get_world;
  match objects_tsv w with
  | None => raise "FileNotFoundError"
  | Some content =>
      match Py.readlines content with
      | [] => raise "StopIteration"
      | _ :: _ => mret tt
      end
  end.

(** The [try] block of [process_pdf]. The loop follows [os.walk], whose
    order is that of the directory listing; here a directory is listed in
    the order of [map_to_list], and what is stated about the lines and the
    objects a run writes is stated of some listing of the directory, not of
    this one. *)
Definition process_body (E : externals) (pdf_name : string) (f : file)
    (sha safe : string) : M unit :=
  extract_with_mutool E (bytes f) safe;;
  let fields := parse_mcro_fields pdf_name in
  let sigmeta := per_pdf_sig_and_meta E (bytes f) in
  w ← get_world;
  for_each (map_to_list (outdir_of w safe))
           (ingest_object E pdf_name safe fields sigmeta);;
  modify (λ w, set_outdir safe (<[STAMP := sha +:+ NL]> (outdir_of w safe)) w);;
  modify (record_processed E sha pdf_name (String.length (bytes f)) (mtime f));;
  modify update_hash_counts;;
  report_rows.

(** [process_pdf] once the settling wait is over, on the file as it is
    found then. *)
Definition process_settled (E : externals) (pdf_name : string)
    (found : option file) : M unit :=
  match found with
  | None => mret tt
  | Some f =>
      let sha := sha256_hexdigest E (bytes f) in
      let size := String.length (bytes f) in
      let mtime_epoch := mtime f in
      w ← get_world;
      if has_inflight w sha then mret tt
      else
        let processed_shas := load_processed_shas w in
        if bool_decide (sha ∈ processed_shas) then mret tt
        else
          let safe := safe_name pdf_name in
          let stamp := outdir_of w safe !! STAMP in
          if bool_decide (Py.strip ∘ Py.universal_newlines <$> stamp = Some sha) then
            (if bool_decide (sha ∉ processed_shas)
             then modify (record_processed E sha pdf_name size mtime_epoch)
             else mret tt)
          else
            modify (mark_inflight E sha);;
            try_finally (process_body E pdf_name f sha safe) (clear_inflight sha)
  end.

(** The file as the settling wait leaves it. *)
Definition settled (doc : document) : option file :=
  doc (wait_for_quiet_file doc DEFAULT_TRIES).

(** [process_pdf] *)
Definition process_pdf (E : externals) (pdf_name : string) (doc : document) : M unit :=
  process_settled E pdf_name (settled doc).

(** ** Scanning and watching *)

(** An entry of the [pdf] directory. *)
Record dir_entry := DirEntry {
  entry_name : string;
  entry_is_file : bool;
  entry_doc : document
}.

Definition entry_le (a b : dir_entry) : Prop :=
  String.le (entry_name a) (entry_name b).

Global Instance entry_le_dec : RelDecision entry_le.
Proof. intros a b. unfold entry_le. apply _. Defined.

(** The body of the loop of [scan_once]. *)
Definition scan_entry (E : externals) (p : dir_entry) : M unit :=
  if entry_is_file p && Re.search_dollar PDF_EXT_RE (entry_name p)
  then process_pdf E (entry_name p) (entry_doc p)
  else mret tt.

(** [scan_once]; [pdf_dir] is [None] when the directory does not exist.
    No exception of [process_pdf] is caught here. *)
Definition scan_once (E : externals) (pdf_dir : option (list dir_entry)) : M unit :=
  match pdf_dir with
  | None => mret tt
  | Some entries => for_each (merge_sort entry_le entries) (scan_entry E)
  end.

(** A file-system event; [event_name] is the base name of the created
    path, or of the destination of a move. *)
Record fs_event := FsEvent {
  event_is_directory : bool;
  event_name : string;
  event_doc : document
}.

(** [PdfWatchHandler.on_created] and [on_moved] have the same body. *)
Definition on_created (E : externals) (event : fs_event) : M unit :=
  if event_is_directory event then mret tt
  else if Re.search_dollar PDF_EXT_RE (event_name event)
       then process_pdf E (event_name event) (event_doc event)
       else mret tt.

Definition on_moved (E : externals) (event : fs_event) : M unit :=
  on_created E event.

(** ** Well-formed inputs *)

Fixpoint all_chars (P : ascii → bool) (s : string) : bool :=
  match s with
  | EmptyString => true
  | String a s' => P a && all_chars P s'
  end.

Definition is_hex_char (a : ascii) : bool :=
  match a with
  | "0" | "1" | "2" | "3" | "4" | "5" | "6" | "7" | "8" | "9"
  | "a" | "b" | "c" | "d" | "e" | "f" => true
  | _ => false
  end%char.

(** The shape of [hexdigest()] of SHA-256: 64 lower-case hex digits. *)
Definition is_hexdigest (s : string) : bool :=
  (String.length s =? 64)%nat && all_chars is_hex_char s.

(** Neither a line feed nor a carriage return. *)
Definition no_lf (a : ascii) : bool := negb (Ascii.eqb a Py.LF).
Definition no_cr (a : ascii) : bool := negb (Ascii.eqb a Py.CR).
Definition not_eol (a : ascii) : bool := no_lf a && no_cr a.

(** What the proofs use of the external collaborators: digests are hex
    digests, and the clock prints a time stamp on one line. *)
Definition externals_ok (E : externals) : Prop :=
  (∀ b, is_hexdigest (sha256_hexdigest E b) = true) ∧
  all_chars not_eol (utcnow_iso E) = true.

(** ** Notions used in the statements *)

(** The extension is one of the spellings of [.pdf]. *)
Definition is_pdf_ext (ext : string) : bool := String.eqb (Py.lower ext) ".pdf".

(** A migrated row without its line feed: the old row [r] between three
    and fourteen tab characters. *)
Definition migrated (r : string) : string := tabs 3 +:+ r +:+ tabs 14.

(** The texts of a list, one after the other. *)
Definition concat_strings (l : list string) : string := foldr String.append "" l.



(** The object-hash column of a ledger line: its fourth field. *)
Definition hash_column (line : string) : option string :=
  Py.split Py.TAB (Py.rstrip_nl line) !! 3.

(** The data rows of the ledger: every line but the header. *)
Definition data_rows (content : string) : list string :=
  tail (Py.readlines content).

(** The number of ledger rows whose hash column is [h]. *)
Definition ledger_count (h : string) (content : string) : nat :=
  length (filter (λ line, hash_column line = Some h) (data_rows content)).

(** An entry of the dedup store is named by the hash [sha]: it is called
    [sha], or [sha] followed by a dot and anything. *)
Definition named_by (sha name : string) : Prop :=
  name = sha ∨ Py.startswith (sha +:+ ".") name = true.

Global Instance named_by_dec sha name : Decision (named_by sha name).
Proof. unfold named_by. apply _. Defined.

(** One call of the dedup-store write: the object's file name, its bytes
    and its content hash. *)
Record store_call := StoreCall {
  call_name : string;
  call_bytes : string;
  call_sha : string
}.

Definition store_all (calls : list store_call) (d : gmap string string)
    : gmap string string :=
  fold_left (λ d c, copy_object_if_new_by_hash (call_name c) (call_bytes c) (call_sha c) d)
            calls d.


(** The pattern [PDF_EXT_RE] at the start of a text, spelled out. *)
Definition pdf_ext_chars (a b c d : ascii) : bool :=
  Ascii.eqb "." a && Re.icase "p" "P" b && Re.icase "d" "D" c && Re.icase "f" "F" d.


(** The first field of a line of the processed table. *)
Definition first_field (line : string) : option string :=
  Py.split Py.TAB (Py.rstrip_nl line) !! 0.


(** The processed table is empty or ends with a line feed, as every table
    this program writes does. *)
Fixpoint ends_with_newline (s : string) : bool :=
  match s with
  | EmptyString => true
  | String a s' =>
      match s' with
      | EmptyString => Ascii.eqb a Py.LF
      | _ => ends_with_newline s'
      end
  end.

Definition processed_wf (w : world) : Prop :=
  ends_with_newline (default "" (processed_tsv w)) = true.

(** One step of the program's life: a run of [process_pdf], whatever its
    outcome, or a start-up [ensure_layout]. *)
Definition run_step (E : externals) (w w' : world) : Prop :=
  w' = ensure_layout w ∨ ∃ name doc, (process_pdf E name doc w).1 = w'.

(** The size a look finds, when it finds the file. *)
Definition size_at (doc : document) (t : nat) : option Z :=
  (λ f, Z.of_nat (String.length (bytes f))) <$> doc t.

(** The look [t] finds the size that the previous look that found the
    file has found. *)
Definition quiet_at (doc : document) (t : nat) : Prop :=
  ∃ t0 s, t0 < t ∧ size_at doc t0 = Some s ∧ size_at doc t = Some s ∧
          ∀ k, t0 < k < t → doc k = None.

(** What the settling loop knows at look [t]: [last] is the size the
    latest earlier look that found the file has found, or [-1]. *)
Definition wait_inv (doc : document) (t : nat) (last : Z) : Prop :=
  (last = (-1)%Z ∧ ∀ k, k < t → doc k = None) ∨
  (∃ t0, t0 < t ∧ size_at doc t0 = Some last ∧ ∀ k, t0 < k < t → doc k = None).

(** A computation leaves one component of the state as it is. *)
Definition preserves {X A} (f : world → X) (m : M A) : Prop :=
  ∀ w, f (m w).1 = f w.


(** ** Further notions used in the statements *)

(** Neither a space nor a slash. *)
Definition plain_char (a : ascii) : bool :=
  negb (Ascii.eqb a " ") && negb (Ascii.eqb a "/").

(** Not an underscore. *)
Definition no_underscore (a : ascii) : bool := negb (Ascii.eqb a "_").

(** A character that can stand in a field of a tab-separated line. *)
Definition field_char (a : ascii) : bool :=
  negb (Ascii.eqb a Py.TAB) && no_lf a.


(** The line has an object hash: a non-empty fourth field. *)
Definition is_hashed (line : string) : bool :=
  match hash_column line with
  | Some h => negb (String.eqb h "")
  | None => false
  end.

(** The sum of the counts of a list of rows. *)
Definition total_count (rows : list (string * nat)) : nat := sum_list rows.*2.

(** The non-blank lines of a tool output, stripped. *)
Definition nonblank_lines (out : string) : list string :=
  filter (λ l, l ≠ "") (Py.strip <$> Py.splitlines out).


(** The entries of the [pdf] directory that [scan_once] processes:
    regular files whose name [PDF_EXT_RE] matches. *)
Definition selected (p : dir_entry) : bool :=
  entry_is_file p && Re.search_dollar PDF_EXT_RE (entry_name p).

(** Not a line boundary of [str.splitlines]. *)
Definition no_linebreak (a : ascii) : bool := negb (Py.is_linebreak a).

(** ** A run, step by step *)

(** An entry of the output directory that is an extracted object: any
    file but the completion stamp. *)
Definition is_object (obj : string * string) : bool :=
  negb (String.eqb obj.1 STAMP).

(** The extension recorded for an object, as the loop of [process_pdf]
    computes it. *)
Definition object_ext (fn : string) : string :=
  capped_ext (if String.eqb (Py.suffix fn) "" then "" else Py.lower (Py.suffix fn)).

(** The ledger line the loop of [process_pdf] writes for an object. *)
Definition object_line (E : externals) (pdf_name safe : string)
    (sigmeta : gmap string string) (obj : string * string) : string :=
  let ext := object_ext obj.1 in
  let font_name :=
    if bool_decide (ext ∈ FONT_EXTS) then get_font_name E obj.1 obj.2 else "" in
  let fields := parse_mcro_fields pdf_name in
  Py.join T (ledger_row fields.1.1 fields.1.2 fields.2
                        (sha256_hexdigest E obj.2) pdf_name
                        (safe +:+ "/" +:+ obj.1) ext font_name sigmeta) +:+ NL.

(** The dedup-store write the loop makes for an object. *)
Definition object_call (E : externals) (obj : string * string) : store_call :=
  StoreCall obj.1 obj.2 (sha256_hexdigest E obj.2).

(** The state after the loop body has run on one entry without raising. *)
Definition ingested (E : externals) (pdf_name safe : string)
    (sigmeta : gmap string string) (w : world) (obj : string * string) : world :=
  if is_object obj then
    set_hashed_objects
      (copy_object_if_new_by_hash obj.1 obj.2 (sha256_hexdigest E obj.2)
                                  (hashed_objects w))
      (set_objects_tsv (append_text (objects_tsv w)
                                    (object_line E pdf_name safe sigmeta obj)) w)
  else w.

(** The output directory of a document as the extraction leaves it: as it
    was when the first run of the tool, in the current directory, succeeds;
    with the files of the second run added otherwise. *)
Definition run_dir (E : externals) (w : world) (pdf_name : string) (f : file)
    : gmap string string :=
  if (mutool_cwd E (bytes f) =? 0)%Z then outdir_of w (safe_name pdf_name)
  else (mutool_outdir E (bytes f)).1 ∪ outdir_of w (safe_name pdf_name).

(** The sanitized name names a directory of its own under [pdf-objects]:
    it is not empty and is neither [.] nor [..], which [pathlib] would take
    for [pdf-objects] itself or its parent. *)
Definition own_directory (safe : string) : bool :=
  negb (bool_decide (safe ∈ [""; "."; ".."])).

(** The objects of a directory: its files but the completion stamp. *)
Definition objects_of (d : gmap string string) : gmap string string :=
  delete STAMP d.

(** The state in which a [try] block of [process_pdf] that does not raise
    ends, from the state [w] it starts in. *)
Definition completed_body (E : externals) (pdf_name : string) (f : file) (w : world)
    : world :=
  let sha := sha256_hexdigest E (bytes f) in
  let safe := safe_name pdf_name in
  let dir := run_dir E w pdf_name f in
  update_hash_counts
    (record_processed E sha pdf_name (String.length (bytes f)) (mtime f)
       (set_outdir safe (<[STAMP := sha +:+ NL]> dir)
          (fold_left (ingested E pdf_name safe (per_pdf_sig_and_meta E (bytes f)))
                     (map_to_list dir) (set_outdir safe dir w)))).

(** The extraction does not fail. *)
Definition extraction_ok (E : externals) (f : file) : Prop :=
  mutool_cwd E (bytes f) = 0%Z ∨ (mutool_outdir E (bytes f)).2 = true.

(** One component of the state only grows along a computation. *)
Definition grows (R : world → world → Prop) {A} (m : M A) : Prop :=
  ∀ w, R w (m w).1.

(** The ledger text is extended at its end. *)
Definition ledger_extends (w w' : world) : Prop :=
  ∃ suffix, default "" (objects_tsv w') = default "" (objects_tsv w) +:+ suffix.

(** Every stored object is still there, unchanged. *)
Definition store_extends (w w' : world) : Prop :=
  ∀ n v, hashed_objects w !! n = Some v → hashed_objects w' !! n = Some v.

(** The text of the processed table is extended at its end. *)
Definition table_extends (w w' : world) : Prop :=
  ∃ suffix, default "" (processed_tsv w') = default "" (processed_tsv w) +:+ suffix.

(** Ledger, processed table and store only receive additions. *)
Definition only_adds (w w' : world) : Prop :=
  ledger_extends w w' ∧ store_extends w w' ∧ table_extends w w'.


(** ** Concrete inputs for the examples *)

Module Demo.

Definition hex_digit (n : nat) : ascii :=
  nth (n mod 16) (String.list_ascii_of_string "0123456789abcdef") "0"%char.

(** A stand-in digest: 62 zeros and the length of the input in hex. *)
Definition toy_sha (b : string) : string :=
  Py.join "" (replicate 62 "0") +:+
  String (hex_digit (String.length b / 16)) (String (hex_digit (String.length b)) "").

(** The extractor fails in the current directory; inside the output
    directory it fails on the document [bad] and otherwise leaves an
    image and a font. *)
Definition tools : externals :=
  Externals toy_sha (λ _, 1%Z)
    (λ b, if String.eqb b "bad" then (∅, false)
          else ({[ "img-1.PNG" := "pic"; "font-2.ttf" := "fnt" ]}, true))
    (λ _, Completed 0 "") (λ _, Completed 0 "")
    (λ _, Completed 0 "") (λ _, Completed 0 "")
    (λ _ _, None) "2024-01-01T00:00:00Z" (λ _, false).

(** The same tools, with one extracted object that cannot be read. *)
Definition tools_unreadable : externals :=
  Externals toy_sha (λ _, 1%Z)
    (λ b, if String.eqb b "bad" then (∅, false)
          else ({[ "img-1.PNG" := "pic"; "font-2.ttf" := "fnt" ]}, true))
    (λ _, Completed 0 "") (λ _, Completed 0 "")
    (λ _, Completed 0 "") (λ _, Completed 0 "")
    (λ _ _, None) "2024-01-01T00:00:00Z" (λ rel, String.eqb rel "a/font-2.ttf").

Definition fresh : world := ensure_layout (World None None None None ∅ ∅ ∅).

(** A document that does not change. *)
Definition still (b : string) : document := λ _, Some (File b 7).

(** A document that is one byte longer at every look. *)
Definition growing : document :=
  λ t, Some (File (Py.join "" (replicate (S t) "x")) 7).

(** Every look but the last of the ten finds a size that the next one
    does not find again. *)
Definition never_quiet (doc : document) : bool :=
  forallb (λ t, negb (bool_decide (size_at doc t = size_at doc (S t)))) (seq 0 9).

(** A directory of two documents: extraction fails on the first. *)
Definition two_docs : list dir_entry :=
  [DirEntry "b.pdf" true (still "hello"); DirEntry "a.pdf" true (still "bad")].

(** The state after a first document has been processed, and after one
    more. *)
Definition after_first : world :=
  (process_pdf tools "MCRO_1_M_2024.pdf" (still "hello") fresh).1.


Definition sha_a : string := Py.join "" (replicate 64 "a").

(** A store that holds only the temporary file of an interrupted write. *)
Definition stale_store : gmap string string := {[ sha_a +:+ ".tmp" := "partial" ]}.

(** A [pdfsig] output with five signature blocks. *)
Definition five_blocks : string :=
  "Signature #4:" +:+ NL +:+
  "  - Signer Certificate Common Name: Dan" +:+ NL +:+
  "Signature #5:" +:+ NL +:+
  "  - Signer Certificate Common Name: Eve" +:+ NL.



(** The state in which the marker of the document [hello] was left
    behind, and the state one run on another document later. *)
Definition stale_marker : world :=
  mark_inflight tools (sha256_hexdigest tools "hello") fresh.

Definition stale_marker_later : world :=
  (process_pdf tools "other.pdf" (still "hello, world") stale_marker).1.

(** A tool set whose extractor succeeds at its first run, in the current
    directory. *)
Definition tools_cwd : externals :=
  Externals toy_sha (λ _, 0%Z)
    (λ b, ({[ "img-1.PNG" := "pic"; "font-2.ttf" := "fnt" ]}, true))
    (λ _, Completed 0 "") (λ _, Completed 0 "")
    (λ _, Completed 0 "") (λ _, Completed 0 "")
    (λ _ _, None) "2024-01-01T00:00:00Z" (λ _, false).


(** The state after a first document has been processed and the processed
    table has been lost. *)
Definition table_lost : world := set_processed_tsv None after_first.

End Demo.

(** * Theorems *)

Local Arguments Ascii.eqb : simpl never.
Local Arguments String.eqb : simpl never.

(** ** Strings *)

Section strings.
Implicit Types (s t u : string) (a b : ascii).

Lemma app_nil_l s : "" +:+ s = s.
Proof. reflexivity. Qed.

Lemma app_cons a s t : String a s +:+ t = String a (s +:+ t).
Proof. reflexivity. Qed.

Lemma app_nil_r s : s +:+ "" = s.
Proof. induction s as [|a s IH]; [done|]. by rewrite app_cons, IH. Qed.

Lemma app_assoc s t u : (s +:+ t) +:+ u = s +:+ t +:+ u.
Proof. induction s as [|a s IH]; [done|]. by rewrite !app_cons, IH. Qed.

Lemma string_length_app s t : String.length (s +:+ t) = String.length s + String.length t.
Proof. induction s as [|a s IH]; [done|]. rewrite app_cons. simpl. by rewrite IH. Qed.

Lemma all_chars_app P s t : all_chars P (s +:+ t) = all_chars P s && all_chars P t.
Proof.
  induction s as [|a s IH]; [done|].
  rewrite app_cons. simpl. rewrite IH. by destruct (P a).
Qed.

Lemma all_chars_impl (P Q : ascii → bool) s :
  (∀ a, P a = true → Q a = true) → all_chars P s = true → all_chars Q s = true.
Proof.
  intros HPQ. induction s as [|a s IH]; [done|]. simpl.
  intros [Ha Hs]%andb_prop. rewrite (HPQ _ Ha). simpl. auto.
Qed.

Lemma split_not_nil c s : Py.split c s ≠ [].
Proof.
  destruct s as [|a s]; [done|]. simpl.
  destruct (Ascii.eqb a c); [done|]. by destruct (Py.split c s).
Qed.

(** Splitting [s ++ c ++ t] when [s] holds no [c]. *)
Lemma split_app_sep c s t :
  all_chars (λ a, negb (Ascii.eqb a c)) s = true →
  Py.split c (s +:+ String c t) = s :: Py.split c t.
Proof.
  induction s as [|a s IH]; intros Hs.
  - rewrite app_nil_l. simpl. by rewrite Ascii.eqb_refl.
  - simpl in Hs. apply andb_prop in Hs as [Ha Hs].
    rewrite app_cons. simpl. apply negb_true_iff in Ha. rewrite Ha.
    by rewrite (IH Hs).
Qed.

(** Splitting is additive over a separator. *)
Lemma split_app c s t :
  Py.split c (s +:+ String c t) = Py.split c s ++ Py.split c t.
Proof.
  induction s as [|a s IH].
  - rewrite app_nil_l. simpl. by rewrite Ascii.eqb_refl.
  - rewrite app_cons. simpl. destruct (Ascii.eqb a c); [by rewrite IH|].
    rewrite IH. pose proof (split_not_nil c s).
    by destruct (Py.split c s).
Qed.

End strings.

(** ** File-name parsing *)

Lemma icase_lower lo up a :
  Re.icase lo up a = true ↔ a = lo ∨ a = up.
Proof.
  unfold Re.icase. rewrite orb_true_iff, !Ascii.eqb_eq. done.
Qed.

Lemma lower_char_eq_p a : Py.lower_char a = "p"%char ↔ a = "p"%char ∨ a = "P"%char.
Proof.
  split; [|by intros [-> | ->]].
  destruct a as [[] [] [] [] [] [] [] []]; vm_compute; intros; simplify_eq; auto.
Qed.

Lemma lower_char_eq_d a : Py.lower_char a = "d"%char ↔ a = "d"%char ∨ a = "D"%char.
Proof.
  split; [|by intros [-> | ->]].
  destruct a as [[] [] [] [] [] [] [] []]; vm_compute; intros; simplify_eq; auto.
Qed.

Lemma lower_char_eq_f a : Py.lower_char a = "f"%char ↔ a = "f"%char ∨ a = "F"%char.
Proof.
  split; [|by intros [-> | ->]].
  destruct a as [[] [] [] [] [] [] [] []]; vm_compute; intros; simplify_eq; auto.
Qed.

Lemma lower_char_eq_dot a : Py.lower_char a = "."%char ↔ a = "."%char.
Proof.
  split; [|by intros ->].
  destruct a as [[] [] [] [] [] [] [] []]; vm_compute; intros; simplify_eq; auto.
Qed.

Lemma match_pdf_ext s :
  Re.match_here PDF_EXT_RE s =
  match s with
  | String a (String b (String c (String d rest))) =>
      if pdf_ext_chars a b c d then Some rest else None
  | _ => None
  end.
Proof.
  unfold PDF_EXT_RE, pdf_ext_chars, Re.lit.
  destruct s as [|a [|b [|c [|d rest]]]]; simpl; repeat case_match; done.
Qed.

Lemma pdf_ext_chars_lower a b c d :
  pdf_ext_chars a b c d = true ↔
  Py.lower (String a (String b (String c (String d "")))) = ".pdf".
Proof.
  unfold pdf_ext_chars. rewrite !andb_true_iff, !icase_lower, Ascii.eqb_eq.
  simpl. split.
  - intros [[[<- Hb] Hc] Hd].
    apply lower_char_eq_p in Hb. apply lower_char_eq_d in Hc.
    apply lower_char_eq_f in Hd. by rewrite Hb, Hc, Hd.
  - intros [= Ha Hb Hc Hd].
    apply (proj1 (lower_char_eq_dot _)) in Ha. apply lower_char_eq_p in Hb.
    apply lower_char_eq_d in Hc. apply lower_char_eq_f in Hd.
    repeat split; done.
Qed.

(** The spellings of the extension are exactly what the pattern accepts
    as a whole text. *)
Lemma is_pdf_ext_chars ext :
  is_pdf_ext ext = true ↔
  ∃ a b c d, ext = String a (String b (String c (String d ""))) ∧
             pdf_ext_chars a b c d = true.
Proof.
  unfold is_pdf_ext. rewrite String.eqb_eq. split.
  - destruct ext as [|a [|b [|c [|d [|e ext]]]]]; simpl; try done.
    intros H. exists a, b, c, d. split; [done|]. by apply pdf_ext_chars_lower.
  - intros (a & b & c & d & -> & H). by apply pdf_ext_chars_lower.
Qed.

Lemma sub_dollar_unfold p a s :
  Re.sub_dollar p (String a s) =
  match Re.match_here p (String a s) with
  | Some rest => if Re.at_dollar rest then rest else String a (Re.sub_dollar p s)
  | None => String a (Re.sub_dollar p s)
  end.
Proof. reflexivity. Qed.

(** Cutting the extension off a name that ends in it leaves the stem. *)
Lemma sub_dollar_stem stem ext :
  is_pdf_ext ext = true → Re.sub_dollar PDF_EXT_RE (stem +:+ ext) = stem.
Proof.
  intros (a & b & c & d & -> & Hext)%is_pdf_ext_chars.
  assert (Ha : a = "."%char).
  { pose proof Hext as H. unfold pdf_ext_chars in H.
    rewrite !andb_true_iff, Ascii.eqb_eq in H. by destruct H as [[[<- _] _] _]. }
  assert (Hnp : Re.icase "p" "P" "."%char = false) by done.
  assert (Hnd : Re.icase "d" "D" "."%char = false) by done.
  assert (Hnf : Re.icase "f" "F" "."%char = false) by done.
  induction stem as [|x stem IH].
  - rewrite app_nil_l, sub_dollar_unfold, match_pdf_ext, Hext. done.
  - rewrite app_cons, sub_dollar_unfold, IH, match_pdf_ext.
    assert (Hno : ∀ rest,
      match String x (stem +:+ String a (String b (String c (String d "")))) with
      | String a' (String b' (String c' (String d' rest'))) =>
          if pdf_ext_chars a' b' c' d' then Some rest' else None
      | _ => None
      end = Some rest → Re.at_dollar rest = false).
    { intros rest. subst a. unfold pdf_ext_chars.
      destruct stem as [|y [|z [|v [|q stem]]]]; rewrite ?app_cons, ?app_nil_l.
      - rewrite Hnp, !andb_false_r. simpl. done.
      - rewrite Hnd, !andb_false_r. simpl. done.
      - rewrite Hnf, !andb_false_r. done.
      - destruct (_ && _); [|done]. intros [= <-]. done.
      - destruct (_ && _); [|done]. intros [= <-]. by destruct stem. }
    simpl in Hno. destruct (match stem +:+ _ with EmptyString => None | _ => _ end)
      as [rest|] eqn:Hr; [|done].
    by rewrite (Hno rest eq_refl).
Qed.

(** C8. File-name parsing. For a name that begins with [MCRO_], the name
    without its document extension is split on underscores: with at least
    four tokens, the tokens 1, 2 and 3 (counting from 0) are the case
    number, the filing type and the filing date; with fewer, and for every
    name that does not begin with [MCRO_], the three fields are empty.
    Stripping the extension removes a final [.pdf] in any letter case. The
    two names of the specification give the stated fields. *)
Theorem parse_mcro_fields_correct :
  (∀ name, Py.startswith "MCRO_" name = true →
     let tokens := Py.split "_" (Re.sub_dollar PDF_EXT_RE name) in
     (4 ≤ length tokens →
        ∃ case_num filing_type filing_date,
          tokens !! 1 = Some case_num ∧ tokens !! 2 = Some filing_type ∧
          tokens !! 3 = Some filing_date ∧
          parse_mcro_fields name = (case_num, filing_type, filing_date)) ∧
     (length tokens < 4 → parse_mcro_fields name = ("", "", ""))) ∧
  (∀ stem ext, is_pdf_ext ext = true →
     Re.sub_dollar PDF_EXT_RE (stem +:+ ext) = stem) ∧
  (∀ name, Py.startswith "MCRO_" name = false →
     parse_mcro_fields name = ("", "", "")) ∧
  parse_mcro_fields "MCRO_12345_Motion_2024-01-01.pdf"
    = ("12345", "Motion", "2024-01-01") ∧
  parse_mcro_fields "report.pdf" = ("", "", "").
Proof.
  split; [|split; [|split; [|split]]].
  - intros name Hpre tokens. unfold parse_mcro_fields. rewrite Hpre.
    cbn [negb]. fold tokens. split.
    + intros Hlen. apply Nat.leb_le in Hlen as Hb. rewrite Hb.
      destruct (lookup_lt_is_Some_2 tokens 1) as [c Hc]; [lia|].
      destruct (lookup_lt_is_Some_2 tokens 2) as [ft Hft]; [lia|].
      destruct (lookup_lt_is_Some_2 tokens 3) as [fd Hfd]; [lia|].
      exists c, ft, fd. rewrite !nth_lookup, Hc, Hft, Hfd. done.
    + intros Hlen. apply Nat.leb_gt in Hlen. by rewrite Hlen.
  - apply sub_dollar_stem.
  - intros name Hpre. unfold parse_mcro_fields. by rewrite Hpre.
  - vm_compute. reflexivity.
  - vm_compute. reflexivity.
Qed.

(** ** Signature-block parsing *)

(** C9 (defect of the code). The header of a fifth signature block does
    not match the block pattern, so it leaves the current block number
    unchanged; the lines that follow it are then captured into the slots of
    the block before it. On the output [Demo.five_blocks] the signer of the
    fifth block, not the one of the fourth, ends up in [SIG4_CN]. *)
Theorem parse_pdfsig_fifth_block_overwrites (E : externals) :
  (∀ cur sigs, parse_pdfsig_line E (cur, sigs) "Signature #5:" = (cur, sigs)) ∧
  parse_pdfsig_output E (Completed 0 Demo.five_blocks) !! "SIG4_CN" = Some "Eve".
Proof.
  split.
  - intros cur sigs. unfold parse_pdfsig_line.
    replace (SIG_BLOCK_RE (Py.strip "Signature #5:")) with (@None nat)
      by (vm_compute; reflexivity).
    replace (Re.search_group CN_RE "Signature #5:") with (@None string)
      by (vm_compute; reflexivity).
    replace (Re.search_group TIME_RE "Signature #5:") with (@None string)
      by (vm_compute; reflexivity).
    replace (Re.search_group RANGE_RE "Signature #5:") with (@None string)
      by (vm_compute; reflexivity).
    by destruct (negb _).
  - vm_compute. reflexivity.
Qed.

(** ** The dedup store *)

Section dedup.
Implicit Types (d : gmap string string) (sha name n : string).

Lemma prefix_app_same p x y : String.prefix (p +:+ x) (p +:+ y) = String.prefix x y.
Proof.
  induction p as [|a p IH]; [done|].
  rewrite !app_cons. simpl. by destruct (ascii_dec a a).
Qed.

Lemma prefix_nil_l s : String.prefix "" s = true.
Proof. by destruct s. Qed.

Lemma startswith_app p x : Py.startswith p (p +:+ x) = true.
Proof.
  unfold Py.startswith. rewrite <- (app_nil_r p) at 1.
  rewrite prefix_app_same. apply prefix_nil_l.
Qed.

(** Two texts of the same length that start a common text are equal. *)
Lemma prefix_app_length p q x y :
  String.length p = String.length q →
  String.prefix (p +:+ x) (q +:+ y) = true → p = q.
Proof.
  revert q. induction p as [|a p IH]; intros [|b q] Hlen; try done.
  rewrite !app_cons. simpl. destruct (ascii_dec a b) as [->|]; [|done].
  intros H. f_equal. apply IH; [by injection Hlen|done].
Qed.

Lemma from_last_dot_shape s r :
  Py.from_last_dot s = Some r → ∃ r', r = String "." r'.
Proof.
  revert r. induction s as [|a s IH]; intros r; [done|]. simpl.
  destruct (Py.from_last_dot s) as [r0|]; [intros [= <-]; eauto|].
  destruct (Ascii.eqb_spec a ".") as [->|]; [|done]. intros [= <-]. eauto.
Qed.

(** The extension an object is stored under is empty or starts with a dot. *)
Lemma stored_ext_shape name :
  let ext := capped_ext (Py.lower (Py.suffix name)) in
  ext = "" ∨ ∃ r, ext = String "." r.
Proof.
  simpl. unfold capped_ext. destruct (_ <? _)%nat; [by left|].
  unfold Py.suffix. destruct name as [|a s]; [by left|].
  destruct (Py.from_last_dot s) as [r|] eqn:Hr; [|by left].
  destruct (_ <? _)%nat; [|by left].
  apply from_last_dot_shape in Hr as [r' ->]. right. by eexists.
Qed.

Lemma named_by_stored sha ext :
  ext = "" ∨ (∃ r, ext = String "." r) → named_by sha (sha +:+ ext).
Proof.
  intros [->|[r ->]].
  - left. apply app_nil_r.
  - right. change (String "." r) with ("." +:+ r).
    replace (sha +:+ "." +:+ r) with ((sha +:+ ".") +:+ r) by apply app_assoc.
    apply startswith_app.
Qed.

Lemma named_by_tmp sha ext :
  ext = "" ∨ (∃ r, ext = String "." r) → named_by sha ((sha +:+ ext) +:+ ".tmp").
Proof.
  intros [->|[r ->]]; right.
  - rewrite app_nil_r.
    replace (sha +:+ ".tmp") with ((sha +:+ ".") +:+ "tmp") by by rewrite app_assoc.
    apply startswith_app.
  - change (String "." r) with ("." +:+ r).
    replace ((sha +:+ "." +:+ r) +:+ ".tmp") with ((sha +:+ ".") +:+ r +:+ ".tmp")
      by by rewrite !app_assoc.
    apply startswith_app.
Qed.

Lemma hexdigest_length s : is_hexdigest s = true → String.length s = 64.
Proof. unfold is_hexdigest. intros [H _]%andb_prop. by apply Nat.eqb_eq. Qed.

(** A name built from one hex digest is not named by another. *)
Lemma named_by_hex_inj sha sha' ext :
  is_hexdigest sha = true → is_hexdigest sha' = true →
  named_by sha (sha' +:+ ext) → sha = sha'.
Proof.
  intros Hs%hexdigest_length Hs'%hexdigest_length [Heq|Hpre].
  - assert (String.length ext = 0) as Hext.
    { apply (f_equal String.length) in Heq. rewrite string_length_app in Heq. lia. }
    destruct ext; [|done]. by rewrite app_nil_r in Heq.
  - unfold Py.startswith in Hpre. apply prefix_app_length in Hpre; [done|lia].
Qed.

Lemma filter_none {A} (P : A → Prop) `{∀ x, Decision (P x)} (l : list A) :
  (∀ x, x ∈ l → ¬ P x) → filter P l = [].
Proof.
  induction l as [|x l IH]; intros Hl; [done|].
  rewrite filter_cons_False by (apply Hl; left).
  apply IH. intros y Hy. apply Hl. by right.
Qed.

Lemma glob_nil sha d :
  glob_sha_dot sha d = [] ↔
  ∀ n, is_Some (d !! n) → Py.startswith (sha +:+ ".") n ≠ true.
Proof.
  unfold glob_sha_dot. split.
  - intros Hnil n [v Hv] Hn.
    apply (filter_nil_not_elem_of _ _ n Hnil Hn). apply list_elem_of_fmap. exists (n, v). split; [done|].
    by apply elem_of_map_to_list.
  - intros Hall. apply filter_none. intros n Hn.
    apply list_elem_of_fmap in Hn as [[n' v] [-> Hnv]].
    apply elem_of_map_to_list in Hnv. apply Hall. by exists v.
Qed.

(** An entry named by the hash blocks the write. *)
Lemma copy_blocked name b sha d n :
  is_Some (d !! n) → named_by sha n →
  copy_object_if_new_by_hash name b sha d = d.
Proof.
  intros Hn [->|Hpre]; unfold copy_object_if_new_by_hash.
  - by rewrite bool_decide_eq_true_2.
  - case_bool_decide; [done|].
    destruct (glob_sha_dot sha d) eqn:Hg; [|done].
    exfalso. by eapply glob_nil.
Qed.

(** Without such an entry the object is written under the hash and its
    extension, and nothing else changes. *)
Lemma copy_fresh name b sha d :
  (∀ n, is_Some (d !! n) → ¬ named_by sha n) →
  copy_object_if_new_by_hash name b sha d
  = <[sha +:+ capped_ext (Py.lower (Py.suffix name)) := b]> d.
Proof.
  intros Hfree. unfold copy_object_if_new_by_hash.
  rewrite bool_decide_eq_false_2.
  2:{ intros Hs. apply (Hfree sha Hs). by left. }
  replace (glob_sha_dot sha d) with (@nil string).
  2:{ symmetry. apply glob_nil. intros n Hn Hpre. apply (Hfree n Hn). by right. }
  rewrite lookup_insert_eq.
  rewrite delete_insert_id; [done|].
  apply eq_None_not_Some. intros Hs. apply (Hfree _ Hs).
  apply named_by_tmp, stored_ext_shape.
Qed.

Lemma copy_cases name b sha d :
  (copy_object_if_new_by_hash name b sha d = d ∧
   ∃ n, is_Some (d !! n) ∧ named_by sha n) ∨
  (copy_object_if_new_by_hash name b sha d
     = <[sha +:+ capped_ext (Py.lower (Py.suffix name)) := b]> d ∧
   ∀ n, is_Some (d !! n) → ¬ named_by sha n).
Proof.
  destruct (decide (Exists (named_by sha) (map_to_list d).*1)) as [Hex|Hno].
  - left. apply Exists_exists in Hex as (n & Hn & Hby).
    apply list_elem_of_fmap in Hn as [[n' v] [-> Hnv]].
    apply elem_of_map_to_list in Hnv.
    split; [by eapply copy_blocked|]. exists n'. by split; [exists v|].
  - right.
    assert (∀ n, is_Some (d !! n) → ¬ named_by sha n) as Hfree.
    { intros n [v Hv] Hby. apply Hno, Exists_exists. exists n. split; [|done].
      apply list_elem_of_fmap. exists (n, v). split; [done|].
      by apply elem_of_map_to_list. }
    split; [by apply copy_fresh|done].
Qed.

(** No entry is overwritten or deleted. *)
Lemma copy_preserves name b sha d n v :
  d !! n = Some v → copy_object_if_new_by_hash name b sha d !! n = Some v.
Proof.
  intros Hn. destruct (copy_cases name b sha d) as [[-> _]|[-> Hfree]]; [done|].
  rewrite lookup_insert_ne; [done|]. intros <-.
  apply (Hfree (sha +:+ capped_ext (Py.lower (Py.suffix name)))); [by eexists|].
  apply named_by_stored, stored_ext_shape.
Qed.

(** A write for one hex digest leaves the entries named by another alone. *)
Lemma copy_other_hash name b sha sha' d n :
  is_hexdigest sha = true → is_hexdigest sha' = true → sha ≠ sha' →
  named_by sha n →
  copy_object_if_new_by_hash name b sha' d !! n = d !! n.
Proof.
  intros Hs Hs' Hne Hby.
  destruct (copy_cases name b sha' d) as [[-> _]|[-> _]]; [done|].
  rewrite lookup_insert_ne; [done|]. intros <-.
  apply Hne. by eapply named_by_hex_inj.
Qed.





End dedup.


(** C10. When the destination directory holds any entry named by the hash
    (the bare hash, or the hash followed by a dot and anything, as the
    leftover [hash.tmp] of an interrupted run is), the write returns without
    copying; and as no write for another digest touches such an entry, the
    entries named by that hash stay as they are through every later
    sequence of writes: the hash is never stored. *)
Theorem stale_entry_suppresses_store (d : gmap string string) (sha stale : string) :
  is_hexdigest sha = true →
  is_Some (d !! stale) →
  named_by sha stale →
  (∀ name b, copy_object_if_new_by_hash name b sha d = d) ∧
  (∀ calls, Forall (λ c, is_hexdigest (call_sha c) = true) calls →
     ∀ n, named_by sha n → store_all calls d !! n = d !! n) ∧
  named_by sha (sha +:+ ".tmp").
Proof.
  intros Hsha Hstale Hby. split; [|split].
  - intros name b. by eapply copy_blocked.
  - intros calls Hcalls. revert d Hstale.
    induction calls as [|c calls IH]; intros d Hstale n Hn; [done|].
    apply Forall_cons in Hcalls as [Hc Hcalls]. simpl.
    fold (store_all calls
            (copy_object_if_new_by_hash (call_name c) (call_bytes c) (call_sha c) d)).
    assert (∀ m, named_by sha m →
      copy_object_if_new_by_hash (call_name c) (call_bytes c) (call_sha c) d !! m
      = d !! m) as Hsame.
    { intros m Hm. destruct (decide (call_sha c = sha)) as [->|Hne].
      - by rewrite (copy_blocked _ _ _ _ stale).
      - by apply (copy_other_hash _ _ sha). }
    rewrite (IH Hcalls); [by apply Hsame| |done].
    by rewrite Hsame.
  - right. replace (sha +:+ ".tmp") with ((sha +:+ ".") +:+ "tmp")
      by by rewrite app_assoc.
    apply startswith_app.
Qed.

Lemma stale_entry_suppresses_store_witness :
  (∀ name b, copy_object_if_new_by_hash name b Demo.sha_a Demo.stale_store
             = Demo.stale_store) ∧
  (∀ calls, Forall (λ c, is_hexdigest (call_sha c) = true) calls →
     ∀ n, named_by Demo.sha_a n →
          store_all calls Demo.stale_store !! n = Demo.stale_store !! n) ∧
  named_by Demo.sha_a (Demo.sha_a +:+ ".tmp").
Proof.
  apply (stale_entry_suppresses_store Demo.stale_store Demo.sha_a
           (Demo.sha_a +:+ ".tmp")).
  - vm_compute. reflexivity.
  - eexists. vm_compute. reflexivity.
  - right. vm_compute. reflexivity.
Defined.

(** ** Lines of a text file *)

Section lines.
Implicit Types (s t body : string) (a : ascii).

Lemma lines_cons a s :
  Py.lines (String a s) =
  if Ascii.eqb a Py.LF then NL :: Py.lines s
  else match Py.lines s with
       | [] => [String a ""]
       | h :: t => String a h :: t
       end.
Proof. reflexivity. Qed.

Lemma lines_nil s : Py.lines s = [] → s = "".
Proof.
  destruct s as [|a s]; [done|]. rewrite lines_cons.
  destruct (Ascii.eqb a Py.LF); [done|]. by destruct (Py.lines s).
Qed.

(** A first line that ends with a line feed. *)
Lemma lines_app_nl body t :
  all_chars no_lf body = true →
  Py.lines (body +:+ NL +:+ t) = (body +:+ NL) :: Py.lines t.
Proof.
  intros Hb. induction body as [|a body IH].
  - rewrite !app_nil_l. unfold NL. rewrite app_cons, app_nil_l, lines_cons.
    by rewrite Ascii.eqb_refl.
  - simpl in Hb. apply andb_prop in Hb as [Ha Hb]. unfold no_lf in Ha.
    apply negb_true_iff in Ha. rewrite !app_cons, lines_cons, Ha, (IH Hb). done.
Qed.

(** A text that ends with a line feed can be read before another. *)
Lemma lines_app s t :
  ends_with_newline s = true → Py.lines (s +:+ t) = Py.lines s ++ Py.lines t.
Proof.
  induction s as [|a s IH]; intros Hs; [done|].
  rewrite app_cons, !lines_cons.
  destruct s as [|b s].
  - simpl in Hs. rewrite Hs. by rewrite app_nil_l.
  - assert (ends_with_newline (String b s) = true) as Hs' by done.
    rewrite (IH Hs'). destruct (Ascii.eqb a Py.LF); [done|].
    destruct (Py.lines (String b s)) as [|h l] eqn:Hl; [|done].
    by apply lines_nil in Hl.
Qed.

Lemma un_cons a s :
  Py.universal_newlines (String a s) =
  if Ascii.eqb a Py.CR then
    match s with
    | String b _ =>
        if Ascii.eqb b Py.LF then Py.universal_newlines s
        else String Py.LF (Py.universal_newlines s)
    | EmptyString => String Py.LF EmptyString
    end
  else String a (Py.universal_newlines s).
Proof. reflexivity. Qed.

Lemma un_no_cr s : all_chars no_cr (Py.universal_newlines s) = true.
Proof.
  induction s as [|a s IH]; [done|]. rewrite un_cons.
  destruct (Ascii.eqb a Py.CR) eqn:Ha.
  - destruct s as [|b s]; [done|]. by destruct (Ascii.eqb b Py.LF).
  - simpl. unfold no_cr at 1. by rewrite Ha.
Qed.

Lemma un_id s : all_chars no_cr s = true → Py.universal_newlines s = s.
Proof.
  induction s as [|a s IH]; [done|]. simpl. intros [Ha Hs]%andb_prop.
  unfold no_cr in Ha. apply negb_true_iff in Ha. by rewrite Ha, IH.
Qed.

Lemma un_app s t :
  ends_with_newline s = true →
  Py.universal_newlines (s +:+ t) = Py.universal_newlines s +:+ Py.universal_newlines t.
Proof.
  induction s as [|a s IH]; intros Hs; [done|].
  rewrite app_cons, !un_cons.
  destruct s as [|b s].
  - simpl in Hs. apply Ascii.eqb_eq in Hs as ->. done.
  - assert (ends_with_newline (String b s) = true) as Hs' by done.
    rewrite (IH Hs'). rewrite app_cons.
    destruct (Ascii.eqb a Py.CR); [|done].
    by destruct (Ascii.eqb b Py.LF).
Qed.

Lemma un_nil s : Py.universal_newlines s = "" → s = "".
Proof.
  induction s as [|a s IH]; [done|]. rewrite un_cons.
  destruct (Ascii.eqb a Py.CR); [|done].
  destruct s as [|b s]; [done|].
  destruct (Ascii.eqb b Py.LF); [|done]. intros H. by apply IH in H.
Qed.

Lemma ends_with_newline_cons a s :
  s ≠ "" → ends_with_newline (String a s) = ends_with_newline s.
Proof. by destruct s. Qed.

Lemma un_ends_with_newline s :
  ends_with_newline s = true → ends_with_newline (Py.universal_newlines s) = true.
Proof.
  induction s as [|a s IH]; intros Hs; [done|].
  rewrite un_cons. destruct s as [|b s].
  - simpl in Hs. apply Ascii.eqb_eq in Hs as ->. done.
  - assert (ends_with_newline (String b s) = true) as Hs' by done.
    specialize (IH Hs').
    assert (Py.universal_newlines (String b s) ≠ "") as Hne.
    { intros H. by apply un_nil in H. }
    destruct (Ascii.eqb a Py.CR).
    + destruct (Ascii.eqb b Py.LF); [done|].
      by rewrite ends_with_newline_cons.
    + by rewrite ends_with_newline_cons.
Qed.

(** Reading a text that ends with a line feed, then another. *)
Lemma readlines_app s t :
  ends_with_newline s = true →
  Py.readlines (s +:+ t) = Py.readlines s ++ Py.readlines t.
Proof.
  intros Hs. unfold Py.readlines. rewrite un_app by done.
  apply lines_app. by apply un_ends_with_newline.
Qed.

Lemma lines_all_chars P s :
  all_chars P s = true → Forall (λ l, all_chars P l = true) (Py.lines s).
Proof.
  induction s as [|a s IH]; [constructor|]. simpl all_chars.
  intros [Ha Hs]%andb_prop. specialize (IH Hs). rewrite lines_cons.
  destruct (Ascii.eqb_spec a Py.LF) as [->|Hne].
  - constructor; [|done]. simpl. by rewrite Ha.
  - destruct (Py.lines s) as [|h l]; constructor.
    + simpl. by rewrite Ha.
    + constructor.
    + simpl. rewrite Ha. simpl. by apply Forall_inv in IH.
    + by apply Forall_inv_tail in IH.
Qed.

(** Every line is a body without line feed, with or without a final one. *)
Lemma lines_shape s :
  Forall (λ l, ∃ body, all_chars no_lf body = true ∧ (l = body +:+ NL ∨ l = body))
         (Py.lines s).
Proof.
  induction s as [|a s IH]; [constructor|]. rewrite lines_cons.
  destruct (Ascii.eqb a Py.LF) eqn:Ha.
  - constructor; [|done]. exists "". split; [done|by left].
  - assert (no_lf a = true) as Hna by (unfold no_lf; by rewrite Ha).
    destruct (Py.lines s) as [|h l].
    + constructor; [|constructor]. exists (String a "").
      split; [simpl; by rewrite Hna|by right].
    + apply Forall_cons in IH as [(body & Hb & Hh) Hl]. constructor; [|done].
      exists (String a body). split; [simpl; by rewrite Hna, Hb|].
      destruct Hh as [->| ->]; [by left|by right].
Qed.

Lemma rstrip_nl_cons a s :
  Py.rstrip_nl (String a s) =
  match Py.rstrip_nl s with
  | EmptyString => if Ascii.eqb a Py.LF then EmptyString else String a EmptyString
  | r => String a r
  end.
Proof. reflexivity. Qed.

Lemma rstrip_nl_body body :
  all_chars no_lf body = true → Py.rstrip_nl body = body.
Proof.
  induction body as [|a body IH]; [done|]. simpl all_chars.
  intros [Ha Hb]%andb_prop. rewrite rstrip_nl_cons, (IH Hb).
  unfold no_lf in Ha. apply negb_true_iff in Ha. rewrite Ha. by destruct body.
Qed.

Lemma rstrip_nl_body_nl body :
  all_chars no_lf body = true → Py.rstrip_nl (body +:+ NL) = body.
Proof.
  induction body as [|a body IH]; [done|]. simpl all_chars.
  intros [Ha Hb]%andb_prop. rewrite app_cons, rstrip_nl_cons, (IH Hb).
  unfold no_lf in Ha. apply negb_true_iff in Ha. rewrite Ha. by destruct body.
Qed.

Lemma all_chars_and P Q s :
  all_chars (λ a, P a && Q a) s = all_chars P s && all_chars Q s.
Proof.
  induction s as [|a s IH]; [done|]. simpl. rewrite IH.
  destruct (P a), (Q a), (all_chars P s), (all_chars Q s); done.
Qed.

(** A line read from a file, without its line feed, is free of line feeds
    and carriage returns. *)
Lemma readlines_rstrip_not_eol content :
  Forall (λ l, all_chars not_eol (Py.rstrip_nl l) = true) (Py.readlines content).
Proof.
  unfold Py.readlines.
  pose proof (lines_all_chars no_cr _ (un_no_cr content)) as Hcr.
  pose proof (lines_shape (Py.universal_newlines content)) as Hsh.
  rewrite Forall_forall in Hcr, Hsh |- *. intros l Hl.
  destruct (Hsh l Hl) as (body & Hb & Hcase). specialize (Hcr l Hl).
  assert (Py.rstrip_nl l = body) as ->.
  { destruct Hcase as [->| ->]; [by apply rstrip_nl_body_nl|by apply rstrip_nl_body]. }
  assert (all_chars no_cr body = true) as Hbcr.
  { destruct Hcase as [->| ->]; [|done].
    rewrite all_chars_app in Hcr. by apply andb_prop in Hcr as [? _]. }
  change not_eol with (λ a, no_lf a && no_cr a).
  by rewrite all_chars_and, Hb, Hbcr.
Qed.

Lemma concat_strings_cons x (l : list string) :
  concat_strings (x :: l) = x +:+ concat_strings l.
Proof. reflexivity. Qed.

(** Reading back a text written line by line. *)
Lemma readlines_written (bodies : list string) :
  Forall (λ b, all_chars not_eol b = true) bodies →
  Py.readlines (concat_strings ((λ b, b +:+ NL) <$> bodies))
  = (λ b, b +:+ NL) <$> bodies.
Proof.
  intros Hb.
  assert (Forall (λ b, all_chars no_lf b = true ∧ all_chars no_cr b = true) bodies)
    as Hb'.
  { eapply Forall_impl; [done|]. intros b. simpl.
    change not_eol with (λ a, no_lf a && no_cr a).
    rewrite all_chars_and. by intros [? ?]%andb_prop. }
  clear Hb. unfold Py.readlines. rewrite un_id.
  - induction Hb' as [|b bodies [Hlf _] _ IH]; [done|].
    rewrite fmap_cons, concat_strings_cons, app_assoc, lines_app_nl by done.
    by rewrite IH.
  - induction Hb' as [|b bodies [_ Hcr] _ IH]; [done|].
    rewrite fmap_cons, concat_strings_cons, !all_chars_app, Hcr, IH. done.
Qed.

End lines.

(** ** Decimal numbers *)

Lemma pretty_N_go_chars (P : ascii → bool) x s :
  (∀ d, P (pretty_N_char d) = true) →
  all_chars P s = true → all_chars P (pretty_N_go x s) = true.
Proof.
  intros Hd. revert s. induction (N.lt_wf_0 x) as [x _ IH]; intros s Hs.
  destruct (decide (x = 0)%N) as [->|Hx].
  - by rewrite pretty_N_go_0.
  - rewrite pretty_N_go_step by lia. apply IH; [apply N.div_lt; lia|].
    simpl. by rewrite Hd, Hs.
Qed.

Lemma pretty_N_char_not_eol d : not_eol (pretty_N_char d) = true.
Proof. unfold pretty_N_char. by repeat case_match. Qed.

Lemma pretty_N_not_eol (x : N) : all_chars not_eol (pretty x) = true.
Proof.
  unfold pretty, pretty_N. case_decide; [done|].
  apply pretty_N_go_chars; [apply pretty_N_char_not_eol|done].
Qed.

Lemma pretty_nat_not_eol (x : nat) : all_chars not_eol (pretty x) = true.
Proof. apply pretty_N_not_eol. Qed.

Lemma pretty_Z_not_eol (x : Z) : all_chars not_eol (pretty x) = true.
Proof.
  destruct x as [|p|p]; [done|apply pretty_N_not_eol|].
  unfold pretty, pretty_Z. rewrite all_chars_app.
  change (pretty p) with (pretty (Npos p)). by rewrite pretty_N_not_eol.
Qed.

(** ** The hash-count aggregator *)

Section hash_count.
Implicit Types (m : gmap string nat) (h line : string).






Global Instance row_le_trans : Transitive row_le.
Proof.
  intros [h1 c1] [h2 c2] [h3 c3]. unfold row_le, key_le, count_key. simpl.
  intros [H12|[H12 L12]] [H23|[H23 L23]]; [left; lia..|].
  right. split; [lia|]. by etrans.
Qed.

Global Instance row_le_total : Total row_le.
Proof.
  intros [h1 c1] [h2 c2]. unfold row_le, key_le, count_key. simpl.
  destruct (Z.lt_trichotomy (- Z.of_nat c1) (- Z.of_nat c2)) as [?|[?|?]];
    [by left; left| |by right; left].
  destruct (total String.le h1 h2); [left|right]; right; split; done || lia.
Qed.




Lemma fold_left_append {A} (f : A → string) (l : list A) (init : string) :
  fold_left (λ out x, out +:+ f x) l init = init +:+ concat_strings (f <$> l).
Proof.
  revert init. induction l as [|x l IH]; intros init; simpl.
  - by rewrite app_nil_r.
  - by rewrite IH, app_assoc.
Qed.

Global Instance row_le_antisymm : AntiSymm eq row_le.
Proof.
  intros [h1 c1] [h2 c2]. unfold row_le, key_le, count_key. simpl.
  intros [H12|[H12 L12]] [H21|[H21 L21]]; try lia.
  f_equal; [|lia]. by apply (anti_symm String.le).
Qed.

(** [sorted] is modelled by a merge sort over the items in the order of
    the map; any other sorting of the same items gives the same rows. *)
Lemma hash_count_rows_unique content (l : list (string * nat)) :
  l ≡ₚ map_to_list (fold_left count_line (data_rows content) ∅) →
  StronglySorted row_le l → l = hash_count_rows content.
Proof.
  intros Hperm Hsorted. apply (StronglySorted_unique row_le); [done| |].
  - unfold hash_count_rows. apply (StronglySorted_merge_sort _).
  - unfold hash_count_rows. by rewrite merge_sort_Permutation.
Qed.





End hash_count.


(** ** Schema migration *)

Lemma not_eol_no_lf s : all_chars not_eol s = true → all_chars no_lf s = true.
Proof.
  change not_eol with (λ a, no_lf a && no_cr a).
  rewrite all_chars_and. by intros [? ?]%andb_prop.
Qed.

Lemma migrated_split r :
  Py.split Py.TAB (migrated r) = ["";"";""] ++ Py.split Py.TAB r ++ replicate 14 "".
Proof.
  unfold migrated.
  change (tabs 3) with (String Py.TAB (String Py.TAB (String Py.TAB ""))).
  change (tabs 14) with (String Py.TAB (tabs 13)).
  rewrite !app_cons, app_nil_l.
  assert (∀ s, Py.split Py.TAB (String Py.TAB s) = "" :: Py.split Py.TAB s) as Hc.
  { intros s. reflexivity. }
  rewrite !Hc, split_app. simpl app. do 3 f_equal.
Qed.

Lemma migration_text_rows content :
  migration_text content
  = concat_strings ((λ b, b +:+ NL) <$>
      (OBJECTS_HEADER :: (migrated <$> (Py.rstrip_nl <$> data_rows content)))).
Proof.
  unfold migration_text. rewrite fold_left_append.
  rewrite fmap_cons, concat_strings_cons. f_equal.
  unfold data_rows. rewrite <- !list_fmap_compose. f_equal.
  apply list_fmap_ext. intros _ line _. simpl.
  unfold migrate_row, migrated. by rewrite !app_assoc.
Qed.

Lemma migrated_not_eol r : all_chars not_eol r = true → all_chars not_eol (migrated r) = true.
Proof.
  intros Hr. unfold migrated. rewrite !all_chars_app, Hr.
  by vm_compute.
Qed.

Lemma data_rows_not_eol content :
  Forall (λ r, all_chars not_eol r = true) (Py.rstrip_nl <$> data_rows content).
Proof.
  apply Forall_fmap. unfold data_rows.
  pose proof (readlines_rstrip_not_eol content) as H.
  destruct (Py.readlines content); [constructor|]. by apply Forall_inv_tail in H.
Qed.

Lemma migration_readback content :
  Py.rstrip_nl <$> Py.readlines (migration_text content)
  = OBJECTS_HEADER :: (migrated <$> (Py.rstrip_nl <$> data_rows content)).
Proof.
  rewrite migration_text_rows.
  assert (Forall (λ b, all_chars not_eol b = true)
            (OBJECTS_HEADER :: (migrated <$> (Py.rstrip_nl <$> data_rows content))))
    as Hb.
  { constructor; [by vm_compute|].
    apply Forall_fmap. eapply Forall_impl; [apply data_rows_not_eol|].
    intros r. apply migrated_not_eol. }
  rewrite readlines_written by done.
  rewrite <- list_fmap_compose.
  rewrite <- (list_fmap_id (OBJECTS_HEADER :: _)) at 2.
  apply Forall_fmap_ext_1. eapply Forall_impl; [done|].
  intros b Hbb. simpl. by apply rstrip_nl_body_nl, not_eol_no_lf.
Qed.



(** ** The monad of the pipeline *)

Section monad.
Context {A B X : Type}.

Lemma bind_raised (m : M A) (k : A → M B) w w' e :
  m w = (w', Raised e) → (m ≫= k) w = (w', Raised e).
Proof. unfold mbind, M_bind. by intros ->. Qed.

Lemma preserves_ret (f : world → X) (a : A) : preserves f (mret a).
Proof. by intros w. Qed.

Lemma preserves_raise (f : world → X) e : preserves f (@raise A e).
Proof. by intros w. Qed.

Lemma preserves_bind (f : world → X) (m : M A) (k : A → M B) :
  preserves f m → (∀ a, preserves f (k a)) → preserves f (m ≫= k).
Proof.
  intros Hm Hk w. unfold mbind, M_bind. specialize (Hm w).
  destruct (m w) as [w' [a|e]]; simpl in *; [|done].
  by rewrite Hk.
Qed.

End monad.

Lemma preserves_get {X} (f : world → X) : preserves f get_world.
Proof. by intros w. Qed.

Lemma preserves_modify {X} (f : world → X) (g : world → world) :
  (∀ w, f (g w) = f w) → preserves f (modify g).
Proof. intros Hg w. apply Hg. Qed.

Lemma preserves_for_each {X A} (f : world → X) (l : list A) (body : A → M unit) :
  (∀ x, preserves f (body x)) → preserves f (for_each l body).
Proof.
  intros Hb. induction l as [|x l IH]; simpl.
  - apply preserves_ret.
  - apply preserves_bind; [apply Hb|by intros _].
Qed.

(** A loop stops at the first iteration that raises. *)
Lemma for_each_raised {A} (before after : list A) (x : A) (body : A → M unit) w w1 w2 e :
  for_each before body w = (w1, Ok tt) →
  body x w1 = (w2, Raised e) →
  for_each (before ++ x :: after) body w = (w2, Raised e).
Proof.
  revert w. induction before as [|y before IH]; intros w; simpl.
  - intros [= <-] Hx. by rewrite (bind_raised _ _ _ _ _ Hx).
  - intros Hb Hx. unfold mbind, M_bind in Hb |- *.
    destruct (body y w) as [w' [[]|e']]; [|done].
    by apply IH.
Qed.

Ltac frame :=
  repeat first
    [ apply preserves_ret
    | apply preserves_raise
    | apply preserves_get
    | apply preserves_modify; intros ?; reflexivity
    | apply preserves_for_each; intros ?
    | apply preserves_bind; [|intros ?]
    | match goal with
      | |- preserves _ (if ?b then _ else _) => destruct b
      | |- preserves _ (match ?x with _ => _ end) => destruct x
      end ].

(** ** What the steps of a run leave alone *)

Lemma extract_preserves_inflight E b safe :
  preserves inflight_dir (extract_with_mutool E b safe).
Proof. unfold extract_with_mutool. frame. Qed.

Lemma extract_preserves_processed E b safe :
  preserves processed_tsv (extract_with_mutool E b safe).
Proof. unfold extract_with_mutool. frame. Qed.

Lemma ingest_preserves_inflight E name safe fields sigmeta obj :
  preserves inflight_dir (ingest_object E name safe fields sigmeta obj).
Proof. unfold ingest_object. frame. Qed.


Lemma report_rows_world w : (report_rows w).1 = w.
Proof.
  unfold report_rows, mbind, M_bind, get_world.
  destruct (objects_tsv w); [|done]. by destruct (Py.readlines _).
Qed.

Lemma body_preserves_inflight E name f sha safe :
  preserves inflight_dir (process_body E name f sha safe).
Proof.
  unfold process_body.
  apply preserves_bind; [apply extract_preserves_inflight|intros _].
  apply preserves_bind; [apply preserves_get|intros w0].
  apply preserves_bind.
  { apply preserves_for_each. intros obj. apply ingest_preserves_inflight. }
  intros _.
  apply preserves_bind; [by apply preserves_modify|intros _].
  apply preserves_bind; [by apply preserves_modify|intros _].
  apply preserves_bind.
  { apply preserves_modify. intros w. unfold update_hash_counts.
    by destruct (objects_tsv w). }
  intros _ w. by rewrite report_rows_world.
Qed.


(** ** The gate of [process_pdf] *)

Section gate.
Context (E : externals) (name : string) (f : file) (w : world).
Let sha := sha256_hexdigest E (bytes f).

Lemma settled_inflight :
  has_inflight w sha = true → process_settled E name (Some f) w = (w, Ok tt).
Proof.
  intros H. unfold process_settled, mbind, M_bind, get_world. fold sha.
  by rewrite H.
Qed.

Lemma settled_processed :
  sha ∈ load_processed_shas w → process_settled E name (Some f) w = (w, Ok tt).
Proof.
  intros H. unfold process_settled, mbind, M_bind, get_world. fold sha.
  destruct (has_inflight w sha); [done|].
  by rewrite bool_decide_eq_true_2.
Qed.

Lemma settled_stamped :
  has_inflight w sha = false → sha ∉ load_processed_shas w →
  Py.strip ∘ Py.universal_newlines <$> (outdir_of w (safe_name name) !! STAMP) = Some sha →
  process_settled E name (Some f) w
  = (record_processed E sha name (String.length (bytes f)) (mtime f) w, Ok tt).
Proof.
  intros Hin Hp Hs. unfold process_settled, mbind, M_bind, get_world. fold sha.
  rewrite Hin, bool_decide_eq_false_2 by done.
  rewrite bool_decide_eq_true_2 by done.
  by rewrite bool_decide_eq_true_2.
Qed.

Lemma settled_runs :
  has_inflight w sha = false → sha ∉ load_processed_shas w →
  Py.strip ∘ Py.universal_newlines <$> (outdir_of w (safe_name name) !! STAMP) ≠ Some sha →
  process_settled E name (Some f) w
  = (clear_inflight sha (process_body E name f sha (safe_name name)
                           (mark_inflight E sha w)).1,
     (process_body E name f sha (safe_name name) (mark_inflight E sha w)).2).
Proof.
  intros Hin Hp Hs. unfold process_settled, mbind, M_bind, get_world. fold sha.
  rewrite Hin, bool_decide_eq_false_2 by done.
  rewrite bool_decide_eq_false_2 by done.
  unfold modify, try_finally.
  by destruct (process_body _ _ _ _ _ _).
Qed.

End gate.

(** ** The processed table *)

Section processed.
Implicit Types (shas : gset string) (h line content : string).

Lemma load_line_spec shas line h :
  h ∈ load_line shas line ↔ h ∈ shas ∨ (h ≠ "" ∧ first_field line = Some h).
Proof.
  unfold load_line, first_field.
  destruct (String.eqb_spec (Py.rstrip_nl line) "") as [->|Hne].
  - simpl. split; [by left|]. intros [?|[Hh [= <-]]]; done.
  - pose proof (split_not_nil Py.TAB (Py.rstrip_nl line)) as Hs.
    destruct (Py.split Py.TAB (Py.rstrip_nl line)) as [|p0 ps]; [done|]. simpl.
    destruct (String.eqb_spec p0 "") as [->|Hp0].
    + split; [by left|]. intros [?|[Hh [= <-]]]; done.
    + rewrite elem_of_union, elem_of_singleton. split.
      * intros [->|?]; [by right|by left].
      * intros [?|[_ [= <-]]]; [by right|by left].
Qed.

Lemma load_fold_spec lines shas h :
  h ∈ fold_left load_line lines shas ↔
  h ∈ shas ∨ (h ≠ "" ∧ ∃ line, line ∈ lines ∧ first_field line = Some h).
Proof.
  revert shas. induction lines as [|l lines IH]; intros shas; simpl.
  - split; [auto|]. intros [?|(_ & line & Hl & _)]; [done|]. by apply elem_of_nil in Hl.
  - rewrite IH, load_line_spec. split.
    + intros [[?|[? ?]]|(? & line & ? & ?)]; [by left|right..].
      * split; [done|]. exists l. split; [left|done].
      * split; [done|]. exists line. split; [by right|done].
    + intros [?|(? & line & Hl & ?)]; [by left; left|].
      apply elem_of_cons in Hl as [->|Hl]; [by left; right|].
      right. split; [done|]. by exists line.
Qed.

Lemma load_spec w h :
  h ∈ load_processed_shas w ↔
  h ≠ "" ∧ ∃ line, line ∈ Py.readlines (default "" (processed_tsv w)) ∧
                   first_field line = Some h.
Proof.
  unfold load_processed_shas. destruct (processed_tsv w) as [c|]; simpl.
  - rewrite load_fold_spec. split; [|by right].
    intros [H|H]; [|done]. by apply not_elem_of_empty in H.
  - split; [intros H; by apply not_elem_of_empty in H|].
    intros (_ & line & Hl & _). by apply elem_of_nil in Hl.
Qed.




Lemma append_readlines w text :
  processed_wf w →
  Py.readlines (default "" (append_text (processed_tsv w) text))
  = Py.readlines (default "" (processed_tsv w)) ++ Py.readlines text.
Proof. intros Hwf. unfold append_text. simpl. by apply readlines_app. Qed.


End processed.

Section records.
Implicit Types (sha name : string).

Lemma hex_char_plain a :
  is_hex_char a = true →
  no_lf a = true ∧ no_cr a = true ∧ negb (Ascii.eqb a Py.TAB) = true.
Proof.
  destruct a as [[] [] [] [] [] [] [] []]; vm_compute; intros; by simplify_eq.
Qed.

Lemma hexdigest_chars sha P :
  (∀ a, is_hex_char a = true → P a = true) →
  is_hexdigest sha = true → all_chars P sha = true.
Proof.
  intros HP [_ H]%andb_prop. by eapply all_chars_impl.
Qed.

Lemma hexdigest_not_empty sha : is_hexdigest sha = true → sha ≠ "".
Proof. intros H%hexdigest_length ->. done. Qed.

Lemma un_app_clean p x :
  all_chars no_cr p = true →
  Py.universal_newlines (p +:+ x) = p +:+ Py.universal_newlines x.
Proof.
  induction p as [|a p IH]; [done|]. simpl all_chars.
  intros [Ha Hp]%andb_prop. rewrite !app_cons, un_cons.
  unfold no_cr in Ha. apply negb_true_iff in Ha. by rewrite Ha, IH.
Qed.

(** The first line of a text that starts with a non-empty text free of
    line feeds. *)
Lemma lines_prefix p x :
  all_chars no_lf p = true → p ≠ "" →
  ∃ body ls, all_chars no_lf body = true ∧
    (Py.lines (p +:+ x) = (p +:+ body +:+ NL) :: ls ∨
     Py.lines (p +:+ x) = (p +:+ body) :: ls).
Proof.
  induction p as [|a p IH]; [done|]. simpl all_chars.
  intros [Ha Hp]%andb_prop _. unfold no_lf in Ha. apply negb_true_iff in Ha.
  rewrite app_cons, lines_cons, Ha.
  destruct p as [|b p].
  - rewrite app_nil_l. pose proof (lines_shape x) as Hsh.
    destruct (Py.lines x) as [|h t].
    + exists "", []. split; [done|]. by right.
    + apply Forall_inv in Hsh as (body & Hb & [->| ->]); exists body, t;
        (split; [done|]); [by left|by right].
  - destruct (IH Hp) as (body & ls & Hb & [Hl|Hl]); [done|..];
      rewrite Hl; exists body, ls; (split; [done|]); [by left|by right].
Qed.

Lemma first_field_sha sha body :
  is_hexdigest sha = true → all_chars no_lf body = true →
  first_field (sha +:+ T +:+ body +:+ NL) = Some sha ∧
  first_field (sha +:+ T +:+ body) = Some sha.
Proof.
  intros Hsha Hb. unfold first_field.
  assert (all_chars no_lf (sha +:+ T +:+ body) = true) as Hall.
  { rewrite !all_chars_app, Hb.
    rewrite (hexdigest_chars sha no_lf); [done| |done].
    intros a Ha. by apply hex_char_plain in Ha as (? & _). }
  assert (Py.split Py.TAB (sha +:+ T +:+ body) !! 0 = Some sha) as Hsplit.
  { unfold T. rewrite app_cons, app_nil_l, split_app_sep; [done|].
    apply hexdigest_chars; [|done]. intros a Ha.
    by apply hex_char_plain in Ha as (_ & _ & ?). }
  split.
  - replace (sha +:+ T +:+ body +:+ NL) with ((sha +:+ T +:+ body) +:+ NL)
      by by rewrite !app_assoc.
    by rewrite rstrip_nl_body_nl.
  - by rewrite rstrip_nl_body.
Qed.

(** The first line of a record carries its hash, whatever the name. *)
Lemma record_first_field E sha name size mt :
  is_hexdigest sha = true →
  ∃ line, line ∈ Py.readlines (processed_record E sha name size mt) ∧
          first_field line = Some sha.
Proof.
  intros Hsha. unfold processed_record, Py.readlines.
  set (rest := name +:+ T +:+ pretty size +:+ T +:+ pretty mt +:+ T +:+
               utcnow_iso E +:+ NL).
  replace (sha +:+ T +:+ rest) with ((sha +:+ T) +:+ rest) by by rewrite app_assoc.
  assert (all_chars no_cr (sha +:+ T) = true) as Hcr.
  { rewrite all_chars_app. rewrite (hexdigest_chars sha no_cr); [done| |done].
    intros a Ha. by apply hex_char_plain in Ha as (_ & ? & _). }
  assert (all_chars no_lf (sha +:+ T) = true) as Hlf.
  { rewrite all_chars_app. rewrite (hexdigest_chars sha no_lf); [done| |done].
    intros a Ha. by apply hex_char_plain in Ha as (? & _). }
  rewrite un_app_clean by done.
  destruct (lines_prefix (sha +:+ T) (Py.universal_newlines rest) Hlf)
    as (body & ls & Hb & [Hl|Hl]).
  { destruct sha; done. }
  - rewrite Hl. exists ((sha +:+ T) +:+ body +:+ NL). split; [left|].
    rewrite app_assoc. apply (proj1 (first_field_sha sha body Hsha Hb)).
  - rewrite Hl. exists ((sha +:+ T) +:+ body). split; [left|].
    rewrite app_assoc. apply (proj2 (first_field_sha sha body Hsha Hb)).
Qed.

(** With a name on one line, a record is one line. *)
Lemma record_one_line E sha name size mt :
  externals_ok E → is_hexdigest sha = true → all_chars not_eol name = true →
  Py.readlines (processed_record E sha name size mt)
  = [processed_record E sha name size mt].
Proof.
  intros [_ Hiso] Hsha Hname.
  set (body := sha +:+ T +:+ name +:+ T +:+ pretty size +:+ T +:+ pretty mt +:+ T +:+
               utcnow_iso E).
  assert (processed_record E sha name size mt = body +:+ NL) as ->.
  { unfold processed_record, body. by rewrite !app_assoc. }
  change [body +:+ NL] with ((λ b, b +:+ NL) <$> [body]).
  rewrite <- (readlines_written [body]).
  { simpl. by rewrite app_nil_r. }
  constructor; [|constructor].
  unfold body. rewrite !all_chars_app, Hname, Hiso, pretty_nat_not_eol,
    pretty_Z_not_eol.
  rewrite (hexdigest_chars sha not_eol); [done| |done].
  intros a Ha. apply hex_char_plain in Ha as (Hlf & Hcr & _).
  unfold not_eol. by rewrite Hlf, Hcr.
Qed.

End records.

(** ** Runs and the processed table *)

Lemma stamp_dec (o : option string) (sha : string) :
  {Py.strip ∘ Py.universal_newlines <$> o = Some sha} +
  {Py.strip ∘ Py.universal_newlines <$> o ≠ Some sha}.
Proof. apply (decide _). Qed.


Lemma ensure_objects_tsv_processed w :
  processed_tsv (ensure_objects_tsv w) = processed_tsv w.
Proof. unfold ensure_objects_tsv. by repeat case_match. Qed.

Lemma ensure_layout_processed w :
  default "" (processed_tsv (ensure_layout w)) = default "" (processed_tsv w).
Proof.
  unfold ensure_layout. pose proof (ensure_objects_tsv_processed w) as H.
  destruct (hash_count_tsv (ensure_objects_tsv w));
    destruct (processed_tsv _) eqn:Hp; simpl in *; by rewrite <- H, ?Hp.
Qed.

(** The layout [ensure_layout] creates has a well-formed processed table. *)
Lemma fresh_layout_wf w :
  processed_tsv w = None → processed_wf (ensure_layout w).
Proof.
  intros H. unfold processed_wf. by rewrite ensure_layout_processed, H.
Qed.



Lemma readlines_not_nil content : content ≠ "" → Py.readlines content ≠ [].
Proof.
  intros Hc H. unfold Py.readlines in H. apply lines_nil, un_nil in H. done.
Qed.

(** ** A run that succeeds *)

Lemma outdir_of_set safe d w : outdir_of (set_outdir safe d w) safe = d.
Proof. unfold outdir_of, set_outdir. simpl. by rewrite lookup_insert_eq. Qed.

Lemma set_outdir_twice safe d1 d2 w :
  set_outdir safe d2 (set_outdir safe d1 w) = set_outdir safe d2 w.
Proof. unfold set_outdir, set_pdf_objects. simpl. by rewrite insert_insert_eq. Qed.

Lemma extract_succeeds E name f w :
  extraction_ok E f →
  extract_with_mutool E (bytes f) (safe_name name) w
  = (set_outdir (safe_name name) (run_dir E w name f) w, Ok tt).
Proof.
  intros Hok. unfold extract_with_mutool, run_dir, mbind, M_bind, modify.
  destruct (Z.eqb_spec (mutool_cwd E (bytes f)) 0) as [Hz|Hz]; simpl.
  - done.
  - destruct Hok as [Hok|Hok]; [done|].
    destruct (mutool_outdir E (bytes f)) as [written ok]. simpl in Hok. subst ok.
    simpl. by rewrite outdir_of_set, set_outdir_twice.
Qed.

Section ingest.
Variables (E : externals) (name safe : string) (sigmeta : gmap string string).

Lemma ingest_object_runs obj w :
  (is_object obj = true → unreadable E (safe +:+ "/" +:+ obj.1) = false) →
  ingest_object E name safe (parse_mcro_fields name) sigmeta obj w
  = (ingested E name safe sigmeta w obj, Ok tt).
Proof.
  intros Hr. unfold ingest_object, ingested, is_object in *.
  destruct obj as [fn b]. simpl in *.
  destruct (String.eqb fn STAMP); [done|]. simpl in *.
  rewrite Hr by done. unfold object_line, object_ext. simpl.
  by destruct (parse_mcro_fields name) as [[c ft] fd].
Qed.

Lemma for_each_ingest l w :
  Forall (λ obj, unreadable E (safe +:+ "/" +:+ obj.1) = false)
         (filter (λ obj, is_object obj = true) l) →
  for_each l (ingest_object E name safe (parse_mcro_fields name) sigmeta) w
  = (fold_left (ingested E name safe sigmeta) l w, Ok tt).
Proof.
  revert w. induction l as [|obj l IH]; intros w Hr; [done|].
  simpl. unfold mbind, M_bind. rewrite ingest_object_runs.
  - apply IH. rewrite filter_cons in Hr.
    destruct (decide (is_object obj = true)); [by inversion Hr|done].
  - intros Hobj. rewrite filter_cons in Hr.
    rewrite decide_True in Hr by done. by inversion Hr.
Qed.

Lemma ingested_frame {X} (g : world → X) l w :
  (∀ v w, g (set_objects_tsv v w) = g w) →
  (∀ v w, g (set_hashed_objects v w) = g w) →
  g (fold_left (ingested E name safe sigmeta) l w) = g w.
Proof.
  intros H1 H2. revert w. induction l as [|obj l IH]; intros w; [done|].
  simpl. rewrite IH. unfold ingested.
  destruct (is_object obj); [|done]. by rewrite H2, H1.
Qed.

Lemma ingested_store l w :
  hashed_objects (fold_left (ingested E name safe sigmeta) l w)
  = store_all (object_call E <$> filter (λ obj, is_object obj = true) l)
              (hashed_objects w).
Proof.
  revert w. induction l as [|obj l IH]; intros w; [done|].
  simpl. rewrite IH, filter_cons. unfold ingested.
  destruct (is_object obj) eqn:Hobj.
  - by rewrite decide_True.
  - by rewrite decide_False by done.
Qed.

Lemma ingested_ledger l w ledger :
  objects_tsv w = Some ledger →
  objects_tsv (fold_left (ingested E name safe sigmeta) l w)
  = Some (ledger +:+
          concat_strings (object_line E name safe sigmeta
                            <$> filter (λ obj, is_object obj = true) l)).
Proof.
  revert w ledger. induction l as [|obj l IH]; intros w ledger Hw.
  { simpl. by rewrite app_nil_r. }
  simpl. rewrite filter_cons. unfold ingested at 2.
  destruct (is_object obj) eqn:Hobj.
  - rewrite decide_True by done.
    erewrite IH; [|simpl; unfold append_text; by rewrite Hw].
    simpl. by rewrite app_assoc.
  - rewrite decide_False by done. by apply IH.
Qed.
End ingest.

Lemma report_rows_ok w ledger :
  objects_tsv w = Some ledger → ledger ≠ "" → report_rows w = (w, Ok tt).
Proof.
  intros Hw Hne. unfold report_rows, mbind, M_bind, get_world. rewrite Hw.
  destruct (Py.readlines ledger) eqn:Hl; [|done].
  exfalso. revert Hl. by apply readlines_not_nil.
Qed.

Lemma update_hash_counts_ledger w :
  objects_tsv (update_hash_counts w) = objects_tsv w.
Proof. unfold update_hash_counts. by destruct (objects_tsv w) eqn:H. Qed.

(** The [try] block of a run whose extraction succeeds and whose objects
    can all be read, on a ledger that has its header. *)
Lemma process_body_succeeds E name f w ledger :
  extraction_ok E f →
  Forall (λ obj, unreadable E (safe_name name +:+ "/" +:+ obj.1) = false)
         (filter (λ obj, is_object obj = true) (map_to_list (run_dir E w name f))) →
  objects_tsv w = Some ledger → ledger ≠ "" →
  process_body E name f (sha256_hexdigest E (bytes f)) (safe_name name) w
  = (completed_body E name f w, Ok tt).
Proof.
  intros Hok Hread Hw Hne. unfold process_body, completed_body.
  unfold mbind at 1, M_bind at 1. rewrite extract_succeeds by done.
  unfold mbind at 1, M_bind at 1, get_world. rewrite outdir_of_set.
  unfold mbind at 1, M_bind at 1. rewrite for_each_ingest by done.
  unfold mbind, M_bind, modify.
  unfold outdir_of at 1.
  rewrite (ingested_frame _ _ _ _ pdf_objects) by done.
  fold (outdir_of (set_outdir (safe_name name) (run_dir E w name f) w) (safe_name name)).
  rewrite outdir_of_set.
  apply (report_rows_ok _
           (ledger +:+
            concat_strings
              (object_line E name (safe_name name) (per_pdf_sig_and_meta E (bytes f))
                 <$> filter (λ obj, is_object obj = true)
                            (map_to_list (run_dir E w name f))))).
  - rewrite update_hash_counts_ledger. unfold record_processed.
    change (objects_tsv (set_processed_tsv ?v ?x)) with (objects_tsv x).
    change (objects_tsv (set_outdir ?s ?d ?x)) with (objects_tsv x).
    by apply ingested_ledger.
  - destruct ledger; [done|]. by rewrite app_cons.
Qed.

Lemma update_hash_counts_frame {X} (g : world → X) w :
  (∀ v w, g (set_hash_count_tsv v w) = g w) → g (update_hash_counts w) = g w.
Proof. intros H. unfold update_hash_counts. by destruct (objects_tsv w); rewrite H. Qed.






Lemma filter_all {A} (P : A → Prop) `{∀ x, Decision (P x)} (l : list A) :
  Forall P l → filter P l = l.
Proof.
  induction 1 as [|x l Hx _ IH]; [done|].
  by rewrite filter_cons_True, IH.
Qed.

(** The files of a directory but the stamp, in any listing. *)
Lemma objects_listing (d : gmap string string) :
  filter (λ obj, is_object obj = true) (map_to_list d) ≡ₚ map_to_list (objects_of d).
Proof.
  assert (∀ d' : gmap string string, d' !! STAMP = None →
            filter (λ obj, is_object obj = true) (map_to_list d') = map_to_list d')
    as Hall.
  { intros d' Hd'. apply filter_all, Forall_forall. intros [fn b] Hin.
    apply elem_of_map_to_list in Hin. unfold is_object. simpl.
    apply negb_true_iff, String.eqb_neq. intros ->. congruence. }
  unfold objects_of. destruct (d !! STAMP) as [v|] eqn:Hd.
  - rewrite <- (Hall (delete STAMP d)) by apply lookup_delete_eq.
    rewrite <- (insert_delete_id d STAMP v) at 1 by done.
    rewrite map_to_list_insert by apply lookup_delete_eq.
    rewrite filter_cons_False; [done|]. by unfold is_object.
  - rewrite delete_id by done. by rewrite Hall.
Qed.

(** The components of the state in which the [try] block ends. *)
Section completed.
Variables (E : externals) (name : string) (f : file) (w : world).



Lemma completed_ledger ledger :
  objects_tsv w = Some ledger →
  objects_tsv (completed_body E name f w)
  = Some (ledger +:+
          concat_strings
            (object_line E name (safe_name name) (per_pdf_sig_and_meta E (bytes f))
               <$> filter (λ obj, is_object obj = true)
                          (map_to_list (run_dir E w name f)))).
Proof.
  intros Hw. unfold completed_body. rewrite update_hash_counts_ledger.
  unfold record_processed.
  change (objects_tsv (set_processed_tsv ?v ?x)) with (objects_tsv x).
  change (objects_tsv (set_outdir ?s ?d ?x)) with (objects_tsv x).
  by apply ingested_ledger.
Qed.

Lemma completed_store :
  hashed_objects (completed_body E name f w)
  = store_all (object_call E
                 <$> filter (λ obj, is_object obj = true)
                            (map_to_list (run_dir E w name f)))
              (hashed_objects w).
Proof.
  unfold completed_body.
  rewrite (update_hash_counts_frame hashed_objects) by done.
  unfold record_processed.
  change (hashed_objects (set_processed_tsv ?v ?x)) with (hashed_objects x).
  change (hashed_objects (set_outdir ?s ?d ?x)) with (hashed_objects x).
  by rewrite ingested_store.
Qed.

Lemma completed_dirs :
  pdf_objects (completed_body E name f w)
  = <[safe_name name :=
        <[STAMP := sha256_hexdigest E (bytes f) +:+ NL]> (run_dir E w name f)]>
      (pdf_objects w).
Proof.
  unfold completed_body.
  rewrite (update_hash_counts_frame pdf_objects) by done.
  unfold record_processed.
  change (pdf_objects (set_processed_tsv ?v ?x)) with (pdf_objects x).
  unfold set_outdir at 1.
  change (pdf_objects (set_pdf_objects ?v ?x)) with v.
  rewrite (ingested_frame _ _ _ _ pdf_objects) by done.
  unfold set_outdir.
  change (pdf_objects (set_pdf_objects ?v ?x)) with v.
  by rewrite insert_insert_eq.
Qed.

Lemma completed_table :
  processed_tsv (completed_body E name f w)
  = append_text (processed_tsv w)
      (processed_record E (sha256_hexdigest E (bytes f)) name
         (String.length (bytes f)) (mtime f)).
Proof.
  unfold completed_body.
  rewrite (update_hash_counts_frame processed_tsv) by done.
  unfold record_processed.
  change (processed_tsv (set_processed_tsv ?v ?x)) with v.
  change (processed_tsv (set_outdir ?s ?d ?x)) with (processed_tsv x).
  by rewrite (ingested_frame _ _ _ _ processed_tsv).
Qed.

Lemma completed_counts ledger :
  objects_tsv (completed_body E name f w) = Some ledger →
  hash_count_tsv (completed_body E name f w)
  = Some (hash_count_text (hash_count_rows ledger)).
Proof.
  unfold completed_body. rewrite update_hash_counts_ledger. intros Hl.
  unfold update_hash_counts. by rewrite Hl.
Qed.

Lemma completed_tmp :
  objects_tsv_tmp (completed_body E name f w) = objects_tsv_tmp w.
Proof.
  unfold completed_body.
  rewrite (update_hash_counts_frame objects_tsv_tmp) by done.
  unfold record_processed.
  change (objects_tsv_tmp (set_processed_tsv ?v ?x)) with (objects_tsv_tmp x).
  change (objects_tsv_tmp (set_outdir ?s ?d ?x)) with (objects_tsv_tmp x).
  by rewrite (ingested_frame _ _ _ _ objects_tsv_tmp).
Qed.
End completed.

(** ** Re-ingestion *)


Lemma demo_tools_ok : externals_ok Demo.tools.
Proof.
  split; [|by vm_compute]. intros b. simpl. unfold Demo.toy_sha.
  assert (∀ n, is_hex_char (Demo.hex_digit n) = true) as Hd.
  { intros n. unfold Demo.hex_digit.
    pose proof (Nat.mod_upper_bound n 16) as Hlt.
    destruct (n mod 16) as [|[|[|[|[|[|[|[|[|[|[|[|[|[|[|[|k]]]]]]]]]]]]]]]];
      try done. lia. }
  unfold is_hexdigest. rewrite string_length_app, all_chars_app. simpl all_chars.
  rewrite !Hd. by vm_compute.
Qed.


(** ** The in-flight marker *)

Lemma mark_then_clear E sha w :
  has_inflight w sha = false →
  delete (lock_name sha) (<[lock_name sha := utcnow_iso E]> (inflight_dir w))
  = inflight_dir w.
Proof.
  intros H. apply delete_insert_id. unfold has_inflight in H.
  apply bool_decide_eq_false in H. by apply eq_None_not_Some.
Qed.

(** C6. Every run of [process_pdf] that sets the in-flight marker of its
    hash clears it on exit. The run sets the marker; the [try] block runs
    from there and ends, normally or raising, with the marker still set;
    the run then ends with the outcome of the block, in the state of the
    block with the marker deleted, whatever that outcome is. The directory
    of markers is then as it was before the run. *)
Theorem inflight_marker_cleared (E : externals) (w : world) (name : string)
    (doc : document) (f : file) :
  settled doc = Some f →
  has_inflight w (sha256_hexdigest E (bytes f)) = false →
  sha256_hexdigest E (bytes f) ∉ load_processed_shas w →
  Py.strip ∘ Py.universal_newlines <$> (outdir_of w (safe_name name) !! STAMP)
    ≠ Some (sha256_hexdigest E (bytes f)) →
  ∃ w_body r,
    has_inflight (mark_inflight E (sha256_hexdigest E (bytes f)) w)
                 (sha256_hexdigest E (bytes f)) = true ∧
    process_body E name f (sha256_hexdigest E (bytes f)) (safe_name name)
                 (mark_inflight E (sha256_hexdigest E (bytes f)) w) = (w_body, r) ∧
    has_inflight w_body (sha256_hexdigest E (bytes f)) = true ∧
    process_pdf E name doc w
      = (clear_inflight (sha256_hexdigest E (bytes f)) w_body, r) ∧
    has_inflight (clear_inflight (sha256_hexdigest E (bytes f)) w_body)
                 (sha256_hexdigest E (bytes f)) = false ∧
    inflight_dir (clear_inflight (sha256_hexdigest E (bytes f)) w_body)
      = inflight_dir w.
Proof.
  intros Hd Hin Hp Hs. set (sha := sha256_hexdigest E (bytes f)) in *.
  pose proof (body_preserves_inflight E name f sha (safe_name name)
                (mark_inflight E sha w)) as Hframe.
  destruct (process_body E name f sha (safe_name name) (mark_inflight E sha w))
    as [w_body r] eqn:Hbody.
  simpl in Hframe. exists w_body, r.
  assert (has_inflight (mark_inflight E sha w) sha = true) as Hmarked.
  { unfold has_inflight, mark_inflight. simpl.
    rewrite lookup_insert_eq. by apply bool_decide_eq_true_2. }
  split; [done|]. split; [done|]. split.
  { unfold has_inflight. rewrite Hframe. apply Hmarked. }
  split.
  { unfold process_pdf. rewrite Hd, settled_runs by done. fold sha.
    by rewrite Hbody. }
  assert (inflight_dir (clear_inflight sha w_body) = inflight_dir w) as Hsame.
  { unfold clear_inflight. simpl. rewrite Hframe. by apply mark_then_clear. }
  split; [|done]. unfold has_inflight in Hin |- *. by rewrite Hsame.
Qed.

Lemma inflight_marker_cleared_witness :
  ∃ w_body r,
    has_inflight (mark_inflight Demo.tools (sha256_hexdigest Demo.tools "bad") Demo.fresh)
                 (sha256_hexdigest Demo.tools "bad") = true ∧
    process_body Demo.tools "a.pdf" (File "bad" 7) (sha256_hexdigest Demo.tools "bad")
                 (safe_name "a.pdf")
                 (mark_inflight Demo.tools (sha256_hexdigest Demo.tools "bad") Demo.fresh)
      = (w_body, r) ∧
    has_inflight w_body (sha256_hexdigest Demo.tools "bad") = true ∧
    process_pdf Demo.tools "a.pdf" (Demo.still "bad") Demo.fresh
      = (clear_inflight (sha256_hexdigest Demo.tools "bad") w_body, r) ∧
    has_inflight (clear_inflight (sha256_hexdigest Demo.tools "bad") w_body)
                 (sha256_hexdigest Demo.tools "bad") = false ∧
    inflight_dir (clear_inflight (sha256_hexdigest Demo.tools "bad") w_body)
      = inflight_dir Demo.fresh.
Proof.
  apply (inflight_marker_cleared Demo.tools Demo.fresh "a.pdf" (Demo.still "bad")
           (File "bad" 7)).
  - reflexivity.
  - vm_compute. reflexivity.
  - change (load_processed_shas Demo.fresh) with (∅ : gset string).
    apply not_elem_of_empty.
  - vm_compute. discriminate.
Defined.

(** The failure paths exist: a failing extraction and an unreadable
    extracted object both make the run raise, with the marker cleared. *)
Example extraction_failure_clears_marker :
  (process_pdf Demo.tools "a.pdf" (Demo.still "bad") Demo.fresh).2
    = Raised "RuntimeError" ∧
  inflight_dir (process_pdf Demo.tools "a.pdf" (Demo.still "bad") Demo.fresh).1 = ∅.
Proof. split; vm_compute; reflexivity. Qed.

Example object_failure_clears_marker :
  (process_pdf Demo.tools_unreadable "a.pdf" (Demo.still "hello") Demo.fresh).2
    = Raised "OSError" ∧
  inflight_dir (process_pdf Demo.tools_unreadable "a.pdf" (Demo.still "hello")
                  Demo.fresh).1 = ∅.
Proof. split; vm_compute; reflexivity. Qed.

(** ** Failures and the scan *)

(** A run that passes the gate ends with the outcome of its [try] block,
    in the state of the block with the marker deleted; the directory of
    markers is then as the run found it. *)
Lemma run_unskipped E w name doc f :
  settled doc = Some f →
  has_inflight w (sha256_hexdigest E (bytes f)) = false →
  sha256_hexdigest E (bytes f) ∉ load_processed_shas w →
  Py.strip ∘ Py.universal_newlines <$> (outdir_of w (safe_name name) !! STAMP)
    ≠ Some (sha256_hexdigest E (bytes f)) →
  process_pdf E name doc w
  = (clear_inflight (sha256_hexdigest E (bytes f))
       (process_body E name f (sha256_hexdigest E (bytes f)) (safe_name name)
          (mark_inflight E (sha256_hexdigest E (bytes f)) w)).1,
     (process_body E name f (sha256_hexdigest E (bytes f)) (safe_name name)
        (mark_inflight E (sha256_hexdigest E (bytes f)) w)).2) ∧
  inflight_dir
    (clear_inflight (sha256_hexdigest E (bytes f))
       (process_body E name f (sha256_hexdigest E (bytes f)) (safe_name name)
          (mark_inflight E (sha256_hexdigest E (bytes f)) w)).1)
  = inflight_dir w.
Proof.
  intros Hd Hin Hp Hs. split.
  - unfold process_pdf. by rewrite Hd, settled_runs.
  - unfold clear_inflight. simpl inflight_dir.
    rewrite body_preserves_inflight. by apply mark_then_clear.
Qed.

Lemma extract_fails E b safe w files :
  mutool_cwd E b ≠ 0%Z → mutool_outdir E b = (files, false) →
  ∃ w', extract_with_mutool E b safe w = (w', Raised "RuntimeError").
Proof.
  intros Hrc Hout. unfold extract_with_mutool.
  apply Z.eqb_neq in Hrc. rewrite Hrc, Hout. simpl.
  unfold mbind, M_bind, modify, raise. eauto.
Qed.

(** The claim C5 fails on a directory of two documents: the extraction of
    [a.pdf] fails, the scan ends with that exception, and [b.pdf], which
    comes after it, is not processed (no record, no ledger row), although
    a run on it alone succeeds and records it. *)
Lemma scan_once_aborts_on_failure :
  (scan_once Demo.tools (Some Demo.two_docs) Demo.fresh).2 = Raised "RuntimeError" ∧
  processed_tsv (scan_once Demo.tools (Some Demo.two_docs) Demo.fresh).1 = Some "" ∧
  objects_tsv (scan_once Demo.tools (Some Demo.two_docs) Demo.fresh).1
    = Some (OBJECTS_HEADER +:+ NL) ∧
  (process_pdf Demo.tools "b.pdf" (Demo.still "hello") Demo.fresh).2 = Ok tt ∧
  processed_tsv (process_pdf Demo.tools "b.pdf" (Demo.still "hello") Demo.fresh).1
    ≠ Some "".
Proof. repeat split; vm_compute; (reflexivity || discriminate). Qed.

(** C5, amended. A per-document failure is propagated, not contained. When
    the extractor fails, [process_pdf] raises after clearing the in-flight
    marker and without writing a processed record, so a later scan tries
    the document again. [scan_once] does not catch the exception: it ends
    with the failure of the first document (in sorted order) whose run
    fails, in the state that run left, and the documents after it are not
    looked at. The watch handlers hand the outcome of [process_pdf] to
    their caller as it is. *)
Theorem scan_once_propagates_failure (E : externals) :
  (∀ name doc f w files,
     settled doc = Some f →
     has_inflight w (sha256_hexdigest E (bytes f)) = false →
     sha256_hexdigest E (bytes f) ∉ load_processed_shas w →
     Py.strip ∘ Py.universal_newlines <$> (outdir_of w (safe_name name) !! STAMP)
       ≠ Some (sha256_hexdigest E (bytes f)) →
     mutool_cwd E (bytes f) ≠ 0%Z → mutool_outdir E (bytes f) = (files, false) →
     ∃ w', process_pdf E name doc w = (w', Raised "RuntimeError") ∧
           has_inflight w' (sha256_hexdigest E (bytes f)) = false ∧
           processed_tsv w' = processed_tsv w) ∧
  (∀ entries before p after w w1 w2 e,
     merge_sort entry_le entries = before ++ p :: after →
     for_each before (scan_entry E) w = (w1, Ok tt) →
     scan_entry E p w1 = (w2, Raised e) →
     scan_once E (Some entries) w = (w2, Raised e)) ∧
  (∀ ev w,
     event_is_directory ev = false →
     Re.search_dollar PDF_EXT_RE (event_name ev) = true →
     on_created E ev w = process_pdf E (event_name ev) (event_doc ev) w ∧
     on_moved E ev w = process_pdf E (event_name ev) (event_doc ev) w).
Proof.
  split; [|split].
  - intros name doc f w files Hd Hin Hp Hs Hrc Hout.
    destruct (run_unskipped E w name doc f Hd Hin Hp Hs) as [Hrun Hsame].
    set (sha := sha256_hexdigest E (bytes f)) in *.
    destruct (extract_fails E (bytes f) (safe_name name) (mark_inflight E sha w)
                files Hrc Hout) as [w' Hex].
    pose proof (extract_preserves_processed E (bytes f) (safe_name name)
                  (mark_inflight E sha w)) as Hframe.
    rewrite Hex in Hframe. simpl in Hframe.
    assert (process_body E name f sha (safe_name name) (mark_inflight E sha w)
            = (w', Raised "RuntimeError")) as Hbody.
    { unfold process_body. by rewrite (bind_raised _ _ _ _ _ Hex). }
    rewrite Hbody in Hrun, Hsame. simpl fst in Hrun, Hsame. simpl snd in Hrun.
    exists (clear_inflight sha w'). split; [done|]. split; [|done].
    unfold has_inflight in Hin |- *. by rewrite Hsame.
  - intros entries before p after w w1 w2 e Hsort Hbefore Hp.
    unfold scan_once. rewrite Hsort. by eapply for_each_raised.
  - intros ev w Hdir Hname. unfold on_moved, on_created. by rewrite Hdir, Hname.
Qed.

(** ** Settling *)

Section settling.
Context (doc : document).

Lemma wait_loop_spec n t last :
  wait_inv doc t last →
  (∀ t', t' < t → ¬ quiet_at doc t') →
  t ≤ wait_loop doc t last n ≤ t + n ∧
  (∀ t', t' < wait_loop doc t last n → ¬ quiet_at doc t') ∧
  (wait_loop doc t last n < t + n → quiet_at doc (wait_loop doc t last n)).
Proof.
  unfold quiet_at, wait_inv, size_at.
  revert t last. induction n as [|n IH]; intros t last Hinv Hnq; simpl.
  - split; [lia|]. split; [done|lia].
  - destruct (doc t) as [f|] eqn:Hdoc.
    + destruct (Z.eqb_spec (Z.of_nat (String.length (bytes f))) last) as [Heq|Hne].
      * split; [lia|]. split; [done|]. intros _.
        destruct Hinv as [[-> _]|(t0 & Ht0 & Hs0 & Hnone)]; [lia|].
        exists t0, last. split; [done|]. split; [done|]. split; [|done].
        by rewrite Hdoc, <- Heq.
      * assert (¬ quiet_at doc t) as Hnqt.
        { unfold quiet_at, size_at. intros (t0' & s & Ht0' & Hs0' & Hst & Hnone').
          rewrite Hdoc in Hst. simpl in Hst. injection Hst as <-.
          destruct Hinv as [[_ Hall]|(t0 & Ht0 & Hs0 & Hnone)].
          - by rewrite (Hall t0' Ht0') in Hs0'.
          - assert (t0' = t0) as ->.
            { destruct (Nat.lt_trichotomy t0' t0) as [Hlt|[?|Hlt]]; [|done|].
              - rewrite (Hnone' t0) in Hs0; [done|lia].
              - rewrite (Hnone t0') in Hs0'; [done|lia]. }
            rewrite Hs0 in Hs0'. by injection Hs0'. }
        destruct (IH (S t) (Z.of_nat (String.length (bytes f)))) as (Hr & Hb & Hq).
        { right. exists t. split; [lia|]. split; [by rewrite Hdoc|]. intros k. lia. }
        { intros t' Ht'. destruct (decide (t' = t)) as [->|]; [done|].
          apply Hnq. lia. }
        split; [lia|]. split; [done|]. intros Hlt. apply Hq. lia.
    + assert (¬ quiet_at doc t) as Hnqt.
      { unfold quiet_at, size_at. intros (t0' & s & _ & _ & Hst & _).
        by rewrite Hdoc in Hst. }
      destruct (IH (S t) last) as (Hr & Hb & Hq).
      { destruct Hinv as [[-> Hall]|(t0 & Ht0 & Hs0 & Hnone)].
        - left. split; [done|]. intros k Hk.
          destruct (decide (k = t)) as [->|]; [done|]. apply Hall. lia.
        - right. exists t0. split; [lia|]. split; [done|]. intros k Hk.
          destruct (decide (k = t)) as [->|]; [done|]. apply Hnone. lia. }
      { intros t' Ht'. destruct (decide (t' = t)) as [->|]; [done|].
        apply Hnq. lia. }
      split; [lia|]. split; [done|]. intros Hlt. apply Hq. lia.
Qed.

End settling.

(** The claim C7 fails on a document that is one byte longer at every
    look: none of the ten looks finds the size of the look before, and the
    document is processed all the same, as found after the tenth look. *)
Lemma growing_document_is_processed :
  Demo.never_quiet Demo.growing = true ∧
  wait_for_quiet_file Demo.growing DEFAULT_TRIES = 10 ∧
  (process_pdf Demo.tools "grow.pdf" Demo.growing Demo.fresh).2 = Ok tt ∧
  processed_tsv (process_pdf Demo.tools "grow.pdf" Demo.growing Demo.fresh).1
    = Some (processed_record Demo.tools (sha256_hexdigest Demo.tools "xxxxxxxxxxx")
              "grow.pdf" 11 7) ∧
  objects_tsv (process_pdf Demo.tools "grow.pdf" Demo.growing Demo.fresh).1
    ≠ objects_tsv Demo.fresh.
Proof. repeat split; vm_compute; (reflexivity || discriminate). Qed.

(** C7, amended. The settling wait is bounded. [wait_for_quiet_file] ends
    at the first look that finds the size found by the previous look that
    found the file, and at the latest after [tries] looks, whether or not
    the size has settled; [process_pdf] then processes the file as that
    moment finds it. Nothing of the run (hashing, extraction, ledger,
    processed record) comes before the end of the wait. *)
Theorem settling_is_bounded (doc : document) (tries : nat) :
  wait_for_quiet_file doc tries ≤ tries ∧
  (∀ t, t < wait_for_quiet_file doc tries → ¬ quiet_at doc t) ∧
  (wait_for_quiet_file doc tries < tries →
     quiet_at doc (wait_for_quiet_file doc tries)) ∧
  (∀ E name w,
     process_pdf E name doc w
     = process_settled E name (doc (wait_for_quiet_file doc DEFAULT_TRIES)) w).
Proof.
  destruct (wait_loop_spec doc tries 0 (-1)) as (Hr & Hb & Hq).
  - left. split; [done|]. intros k. lia.
  - intros t'. lia.
  - unfold wait_for_quiet_file. split; [lia|]. split; [done|]. split; [|done].
    intros Hlt. apply Hq. lia.
Qed.

(** * Further properties of the code *)

(** ** Sanitized names and the document extension *)

Section names.
Implicit Types (s name stem ext : string).

Lemma split_parts_clean c s :
  Forall (λ p, all_chars (λ a, negb (Ascii.eqb a c)) p = true) (Py.split c s).
Proof.
  induction s as [|a s IH]; [by constructor|]. simpl.
  destruct (Ascii.eqb a c) eqn:Ha; [by constructor|].
  destruct (Py.split c s) as [|h t]; [constructor; [simpl; by rewrite Ha|done]|].
  apply Forall_cons in IH as [Hh Ht]. constructor; [|done].
  simpl. by rewrite Ha, Hh.
Qed.

Lemma split_single c s :
  all_chars (λ a, negb (Ascii.eqb a c)) s = true → Py.split c s = [s].
Proof.
  induction s as [|a s IH]; intros Hs; [done|].
  simpl in Hs. apply andb_prop in Hs as [Ha Hs].
  simpl. apply negb_true_iff in Ha. by rewrite Ha, (IH Hs).
Qed.

Lemma replace_char_no_old old new s :
  old ≠ new → all_chars (λ a, negb (Ascii.eqb a old)) (Py.replace_char old new s) = true.
Proof.
  intros Hne. induction s as [|a s IH]; [done|]. simpl. rewrite IH, andb_true_r.
  destruct (Ascii.eqb_spec a old) as [->|Ha].
  - apply negb_true_iff, Ascii.eqb_neq. congruence.
  - by apply negb_true_iff, Ascii.eqb_neq.
Qed.

Lemma replace_char_keeps (P : ascii → bool) old new s :
  P new = true → all_chars P s = true → all_chars P (Py.replace_char old new s) = true.
Proof.
  intros Hnew. induction s as [|a s IH]; [done|]. simpl.
  intros [Ha Hs]%andb_prop. rewrite (IH Hs), andb_true_r.
  by destruct (Ascii.eqb a old).
Qed.

Lemma replace_char_id old new s :
  all_chars (λ a, negb (Ascii.eqb a old)) s = true → Py.replace_char old new s = s.
Proof.
  induction s as [|a s IH]; [done|]. simpl. intros [Ha Hs]%andb_prop.
  apply negb_true_iff in Ha. by rewrite Ha, (IH Hs).
Qed.

Lemma basename_no_slash s :
  all_chars (λ a, negb (Ascii.eqb a "/")) (Py.basename s) = true.
Proof.
  unfold Py.basename. pose proof (split_parts_clean "/" s) as Hall.
  pose proof (split_not_nil "/" s) as Hne.
  rewrite Forall_forall in Hall. apply Hall.
  destruct (Py.split "/" s) as [|p ps]; [done|].
  apply list_elem_of_In. apply (exists_last (l := p :: ps)) in Hne as (l' & x & Heq).
  rewrite Heq, last_last. apply in_or_app. right. by left.
Qed.

Lemma basename_id s :
  all_chars (λ a, negb (Ascii.eqb a "/")) s = true → Py.basename s = s.
Proof. intros Hs. unfold Py.basename. by rewrite split_single. Qed.

Lemma plain_char_split s :
  all_chars plain_char s =
  all_chars (λ a, negb (Ascii.eqb a " ")) s && all_chars (λ a, negb (Ascii.eqb a "/")) s.
Proof. apply all_chars_and. Qed.

Lemma safe_name_plain name : all_chars plain_char (safe_name name) = true.
Proof.
  unfold safe_name. rewrite plain_char_split.
  rewrite replace_char_no_old by done. rewrite andb_true_r.
  apply replace_char_keeps; [done|]. by apply replace_char_no_old.
Qed.

Lemma safe_name_stem stem ext :
  all_chars plain_char stem = true → is_pdf_ext ext = true →
  safe_name (stem +:+ ext) = stem.
Proof.
  rewrite plain_char_split. intros [Hsp Hsl]%andb_prop Hext.
  unfold safe_name. rewrite sub_dollar_stem by done.
  rewrite basename_id by done. by rewrite (replace_char_id " "), replace_char_id.
Qed.

End names.

(** X1. The directory name [safe_name] gives holds neither a space nor a
    slash. A name made of such a stem and the extension [.pdf], in any
    letter case, gives the stem back; so the name [safe_name n] followed by
    [.pdf] shares its output directory with [n]. *)
Theorem safe_name_sanitized :
  (∀ name, all_chars plain_char (safe_name name) = true) ∧
  (∀ stem ext, all_chars plain_char stem = true → is_pdf_ext ext = true →
     safe_name (stem +:+ ext) = stem) ∧
  (∀ name, safe_name (safe_name name +:+ ".pdf") = safe_name name).
Proof.
  split; [apply safe_name_plain|]. split; [apply safe_name_stem|].
  intros name. apply safe_name_stem; [apply safe_name_plain|done].
Qed.

(** X2. The names [scan_once] and the watch handlers accept are those
    [PDF_EXT_RE] finds a match in: exactly the names that end with [.pdf]
    in any letter case, or with that and one final line feed. *)
Theorem pdf_ext_search_spec (name : string) :
  Re.search_dollar PDF_EXT_RE name = true ↔
  ∃ stem ext tail, name = stem +:+ ext +:+ tail ∧ is_pdf_ext ext = true ∧
                   (tail = "" ∨ tail = NL).
Proof.
  assert (∀ rest, Re.at_dollar rest = true ↔ rest = "" ∨ rest = NL) as Hat.
  { intros [|a [|b rest]]; simpl.
    - split; [by left|done].
    - rewrite Ascii.eqb_eq. unfold NL. split.
      + intros ->. by right.
      + intros [?|[= ->]]; done.
    - split; [done|]. intros [?|?]; done. }
  assert (∀ x s, Re.search_dollar PDF_EXT_RE (String x s) =
            match Re.match_here PDF_EXT_RE (String x s) with
            | Some rest => Re.at_dollar rest
            | None => false
            end || Re.search_dollar PDF_EXT_RE s) as Hcons by done.
  split.
  - induction name as [|x name IH]; [done|].
    + rewrite Hcons, match_pdf_ext. intros [H|H]%orb_prop.
      * destruct name as [|b [|c [|d rest]]]; try done.
        destruct (pdf_ext_chars x b c d) eqn:Hc; [|done].
        exists "", (String x (String b (String c (String d "")))), rest.
        split; [done|]. split; [|by apply Hat].
        apply is_pdf_ext_chars. by exists x, b, c, d.
      * destruct (IH H) as (stem & ext & tail & -> & Hext & Htail).
        by exists (String x stem), ext, tail.
  - intros (stem & ext & tail & -> & Hext & Htail).
    apply is_pdf_ext_chars in Hext as (a & b & c & d & -> & Hc).
    induction stem as [|x stem IH].
    + rewrite app_nil_l, !app_cons, app_nil_l, Hcons, match_pdf_ext, Hc.
      apply orb_true_iff. left. by apply Hat.
    + rewrite app_cons, Hcons, IH. apply orb_true_r.
Qed.

(** X3. No field [parse_mcro_fields] returns holds an underscore: a filing
    type written with underscores is cut at its first one, and the token
    after it is taken for the filing date. *)
Theorem parse_mcro_fields_no_underscore (name : string) :
  all_chars no_underscore (parse_mcro_fields name).1.1 = true ∧
  all_chars no_underscore (parse_mcro_fields name).1.2 = true ∧
  all_chars no_underscore (parse_mcro_fields name).2 = true.
Proof.
  unfold parse_mcro_fields. destruct (negb _); [done|].
  set (parts := Py.split "_" _). destruct (4 <=? length parts)%nat eqn:Hlen; [|done].
  apply Nat.leb_le in Hlen.
  pose proof (split_parts_clean "_" (Re.sub_dollar PDF_EXT_RE name)) as Hall.
  fold parts in Hall. rewrite Forall_forall in Hall. simpl.
  repeat split; apply Hall, list_elem_of_In, nth_In; lia.
Qed.

(** ** Ledger rows as lines *)

Lemma join_all_chars (P : ascii → bool) sep (parts : list string) :
  all_chars P sep = true → Forall (λ p, all_chars P p = true) parts →
  all_chars P (Py.join sep parts) = true.
Proof.
  intros Hsep. induction 1 as [|p ps Hp Hps IH]; [done|].
  destruct ps as [|q ps]; [done|].
  change (Py.join sep (p :: q :: ps)) with (p +:+ sep +:+ Py.join sep (q :: ps)).
  by rewrite !all_chars_app, Hp, Hsep, IH.
Qed.

Lemma split_join c (parts : list string) :
  parts ≠ [] →
  Forall (λ p, all_chars (λ a, negb (Ascii.eqb a c)) p = true) parts →
  Py.split c (Py.join (String c "") parts) = parts.
Proof.
  intros Hne Hall. induction Hall as [|p ps Hp Hps IH]; [done|].
  destruct ps as [|q ps]; [by apply split_single|].
  change (Py.join (String c "") (p :: q :: ps))
    with (p +:+ String c (Py.join (String c "") (q :: ps))).
  rewrite split_app_sep by done. f_equal. by apply IH.
Qed.

(** X4. A row the program appends to the ledger is read back as it was
    written: when none of its 22 fields holds a tab or a line feed, the
    line [TAB.join(row)] with its line feed, stripped and split on tabs as
    [update_hash_counts] does, gives the fields again, and its fourth
    field is the object hash. *)
Theorem ledger_row_round_trip
    (case_num filing_type filing_date h pdf_name rel ext font_name : string)
    (sigmeta : gmap string string) :
  Forall (λ f, all_chars field_char f = true)
    (ledger_row case_num filing_type filing_date h pdf_name rel ext font_name sigmeta) →
  Py.split Py.TAB
    (Py.rstrip_nl
       (Py.join T (ledger_row case_num filing_type filing_date h pdf_name rel ext
                              font_name sigmeta) +:+ NL))
  = ledger_row case_num filing_type filing_date h pdf_name rel ext font_name sigmeta ∧
  hash_column
    (Py.join T (ledger_row case_num filing_type filing_date h pdf_name rel ext
                           font_name sigmeta) +:+ NL) = Some h.
Proof.
  set (row := ledger_row _ _ _ _ _ _ _ _ _). intros Hall.
  assert (Forall (λ p, all_chars (λ a, negb (Ascii.eqb a Py.TAB)) p = true) row
          ∧ Forall (λ p, all_chars no_lf p = true) row) as [Htab Hlf].
  { split; (eapply Forall_impl; [done|]); intros f Hf; simpl;
      unfold field_char in Hf;
      rewrite (all_chars_and (λ a, negb (Ascii.eqb a Py.TAB)) no_lf) in Hf;
      by apply andb_prop in Hf as [? ?]. }
  assert (Py.split Py.TAB (Py.rstrip_nl (Py.join T row +:+ NL)) = row) as Hrt.
  { rewrite rstrip_nl_body_nl by (by apply join_all_chars).
    by apply split_join. }
  split; [done|]. unfold hash_column. by rewrite Hrt.
Qed.

Lemma ledger_row_round_trip_witness :
  Py.split Py.TAB
    (Py.rstrip_nl
       (Py.join T (ledger_row "1" "M" "2024" Demo.sha_a "a.pdf" "a/x.png" ".png" ""
                              empty_sigs) +:+ NL))
  = ledger_row "1" "M" "2024" Demo.sha_a "a.pdf" "a/x.png" ".png" "" empty_sigs ∧
  hash_column
    (Py.join T (ledger_row "1" "M" "2024" Demo.sha_a "a.pdf" "a/x.png" ".png" ""
                           empty_sigs) +:+ NL) = Some Demo.sha_a.
Proof.
  apply (ledger_row_round_trip "1" "M" "2024" Demo.sha_a "a.pdf" "a/x.png" ".png" ""
           empty_sigs).
  vm_compute. repeat constructor.
Defined.

(** ** The processed set and the markers *)

(** X5. What [load_processed_shas] returns: the non-empty first fields of
    the lines of the processed table, and nothing else. Blank lines and
    lines whose first field is empty add nothing, the empty text is never
    in the set, and a missing table gives the empty set. *)
Theorem load_processed_shas_characterised (w : world) :
  (∀ h, h ∈ load_processed_shas w ↔
        h ≠ "" ∧ ∃ line, line ∈ Py.readlines (default "" (processed_tsv w)) ∧
                         first_field line = Some h) ∧
  ("" ∉ load_processed_shas w) ∧
  (processed_tsv w = None → load_processed_shas w = ∅).
Proof.
  split; [intros h; apply load_spec|]. split.
  - intros H. by apply load_spec in H as [? _].
  - intros H. unfold load_processed_shas. by rewrite H.
Qed.

(** X6. Recording then loading. On a well-formed table, after
    [record_processed] for a digest [sha] and a document name on one line,
    the processed set is the former set with [sha] added. *)
Theorem record_then_load (E : externals) (w : world) (sha name : string)
    (size : nat) (mt : Z) :
  externals_ok E → processed_wf w → is_hexdigest sha = true →
  all_chars not_eol name = true →
  load_processed_shas (record_processed E sha name size mt w)
  = {[sha]} ∪ load_processed_shas w.
Proof.
  intros HE Hwf Hsha Hname. apply set_eq. intros h.
  rewrite elem_of_union, elem_of_singleton, !load_spec.
  unfold record_processed.
  change (processed_tsv (set_processed_tsv ?v w)) with v.
  rewrite append_readlines, record_one_line by done.
  destruct (record_first_field E sha name size mt Hsha) as (line & Hline & Hfield).
  rewrite record_one_line in Hline by done.
  apply list_elem_of_singleton in Hline as ->.
  split.
  - intros (Hh & line & [Hl|Hl]%elem_of_app & Hf).
    + right. split; [done|]. by exists line.
    + apply list_elem_of_singleton in Hl as ->. left. congruence.
  - intros [->|(Hh & line & Hl & Hf)].
    + split; [by apply hexdigest_not_empty|].
      exists (processed_record E sha name size mt). split; [|done].
      apply elem_of_app. right. by apply list_elem_of_singleton.
    + split; [done|]. exists line. split; [|done]. apply elem_of_app. by left.
Qed.

Lemma record_then_load_witness :
  load_processed_shas
    (record_processed Demo.tools Demo.sha_a "a.pdf" 5 7 Demo.after_first)
  = {[Demo.sha_a]} ∪ load_processed_shas Demo.after_first.
Proof.
  apply (record_then_load Demo.tools Demo.after_first Demo.sha_a "a.pdf" 5 7).
  - apply demo_tools_ok.
  - vm_compute. reflexivity.
  - vm_compute. reflexivity.
  - vm_compute. reflexivity.
Defined.

Lemma app_inj_r (s s' t : string) : s +:+ t = s' +:+ t → s = s'.
Proof.
  revert s'. induction s as [|a s IH]; intros [|b s'] H; [done| | |].
  - apply (f_equal String.length) in H.
    rewrite app_nil_l, app_cons in H. simpl in H. rewrite string_length_app in H. lia.
  - apply (f_equal String.length) in H.
    rewrite app_nil_l, app_cons in H. simpl in H. rewrite string_length_app in H. lia.
  - rewrite !app_cons in H. injection H as -> H. f_equal. by apply IH.
Qed.

Lemma lock_name_inj sha sha' : lock_name sha = lock_name sha' → sha = sha'.
Proof. apply app_inj_r. Qed.

(** X7. The in-flight markers behave as a set of hashes. Marking a hash
    makes [has_inflight] true for it, clearing makes it false, and neither
    changes the answer for another hash; clearing a hash that is not marked
    changes nothing (the file is unlinked with [missing_ok]). *)
Theorem inflight_markers_round_trip (E : externals) (w : world) (sha : string) :
  has_inflight (mark_inflight E sha w) sha = true ∧
  has_inflight (clear_inflight sha w) sha = false ∧
  (∀ sha', sha' ≠ sha →
     has_inflight (mark_inflight E sha w) sha' = has_inflight w sha' ∧
     has_inflight (clear_inflight sha w) sha' = has_inflight w sha') ∧
  (has_inflight w sha = false → clear_inflight sha w = w) ∧
  clear_inflight sha (mark_inflight E sha (clear_inflight sha w)) = clear_inflight sha w.
Proof.
  unfold has_inflight, mark_inflight, clear_inflight. simpl.
  split; [|split; [|split; [|split]]].
  - rewrite lookup_insert_eq. by apply bool_decide_eq_true_2.
  - rewrite lookup_delete_eq. apply bool_decide_eq_false_2. by intros [? ?].
  - intros sha' Hne.
    assert (lock_name sha ≠ lock_name sha') as Hl.
    { intros H. by apply lock_name_inj in H. }
    by rewrite lookup_insert_ne, lookup_delete_ne.
  - intros H. apply bool_decide_eq_false in H. apply eq_None_not_Some in H.
    rewrite delete_id by done. by destruct w.
  - unfold set_inflight_dir. simpl. f_equal.
    by rewrite delete_insert_eq, delete_delete_eq.
Qed.

Lemma process_pdf_inflight E name doc w :
  inflight_dir (process_pdf E name doc w).1 = inflight_dir w.
Proof.
  destruct (settled doc) as [f|] eqn:Hd; [|unfold process_pdf; by rewrite Hd].
  set (sha := sha256_hexdigest E (bytes f)).
  destruct (has_inflight w sha) eqn:Hin.
  { unfold process_pdf. by rewrite Hd, settled_inflight. }
  destruct (decide (sha ∈ load_processed_shas w)) as [Hp|Hp].
  { unfold process_pdf. by rewrite Hd, settled_processed. }
  destruct (stamp_dec (outdir_of w (safe_name name) !! STAMP) sha) as [Hs|Hs].
  { unfold process_pdf. by rewrite Hd, settled_stamped. }
  destruct (run_unskipped E w name doc f Hd Hin Hp Hs) as [-> Hsame]. done.
Qed.

Lemma ensure_layout_inflight w : inflight_dir (ensure_layout w) = inflight_dir w.
Proof. unfold ensure_layout, ensure_objects_tsv. by repeat case_match. Qed.

(** X8. No run changes the directory of markers: [process_pdf] deletes
    only the marker it has set itself, and [ensure_layout] deletes none.
    So a marker left behind by a killed run stays, and every later run on
    a document with that hash is skipped, with the state unchanged: the
    document is not processed again until the marker is removed by hand. *)
Theorem stale_marker_blocks_document (E : externals) (w w' : world) :
  rtc (run_step E) w w' →
  inflight_dir w' = inflight_dir w ∧
  (∀ name doc f,
     settled doc = Some f →
     has_inflight w (sha256_hexdigest E (bytes f)) = true →
     process_pdf E name doc w' = (w', Ok tt)).
Proof.
  intros Hrtc.
  assert (inflight_dir w' = inflight_dir w) as Hsame.
  { induction Hrtc as [w|w w1 w2 Hstep _ IH]; [done|]. rewrite IH.
    destruct Hstep as [->|(name & doc & <-)];
      [apply ensure_layout_inflight|apply process_pdf_inflight]. }
  split; [done|]. intros name doc f Hd Hin.
  unfold process_pdf. rewrite Hd. apply settled_inflight.
  unfold has_inflight in Hin |- *. by rewrite Hsame.
Qed.

Lemma stale_marker_blocks_document_witness :
  inflight_dir Demo.stale_marker_later = inflight_dir Demo.stale_marker ∧
  (∀ name doc f,
     settled doc = Some f →
     has_inflight Demo.stale_marker (sha256_hexdigest Demo.tools (bytes f)) = true →
     process_pdf Demo.tools name doc Demo.stale_marker_later
       = (Demo.stale_marker_later, Ok tt)).
Proof.
  apply (stale_marker_blocks_document Demo.tools Demo.stale_marker
           Demo.stale_marker_later).
  apply rtc_once. right. exists "other.pdf", (Demo.still "hello, world").
  reflexivity.
Defined.

(** ** Initialization, again *)

Lemma ensure_objects_tsv_fixed w c :
  objects_tsv w = Some c → c ≠ "" →
  Py.rstrip_nl (hd "" (Py.readlines c)) ≠ OLD_HEADER_5 →
  ensure_objects_tsv w = w.
Proof.
  intros Hw Hc Hfirst. unfold ensure_objects_tsv. rewrite Hw.
  apply String.eqb_neq in Hc, Hfirst. by rewrite Hc, Hfirst.
Qed.

Lemma ensure_objects_tsv_result w :
  ∃ c, objects_tsv (ensure_objects_tsv w) = Some c ∧ c ≠ "" ∧
       Py.rstrip_nl (hd "" (Py.readlines c)) ≠ OLD_HEADER_5.
Proof.
  assert (OBJECTS_HEADER +:+ NL ≠ "" ∧
          Py.rstrip_nl (hd "" (Py.readlines (OBJECTS_HEADER +:+ NL))) ≠ OLD_HEADER_5)
    as [Hh1 Hh2] by (split; vm_compute; discriminate).
  unfold ensure_objects_tsv. destruct (objects_tsv w) as [c|] eqn:Hw.
  2:{ by exists (OBJECTS_HEADER +:+ NL). }
  destruct (String.eqb_spec c "") as [->|Hc].
  { by exists (OBJECTS_HEADER +:+ NL). }
  destruct (String.eqb_spec (Py.rstrip_nl (hd "" (Py.readlines c))) OLD_HEADER_5)
    as [Hold|Hold].
  - exists (migration_text c). split; [done|].
    pose proof (migration_readback c) as Hrb.
    destruct (Py.readlines (migration_text c)) as [|l ls] eqn:Hl; [done|].
    injection Hrb as Hhd _. split.
    + intros Heq. by rewrite Heq in Hl.
    + simpl. rewrite Hhd. by vm_compute.
  - by exists c.
Qed.

(** X9. [ensure_layout] is idempotent: run on the state it has produced,
    it changes nothing. In particular the migration of a legacy ledger
    happens once, the migrated ledger is not migrated again. *)
Theorem ensure_layout_idempotent (w : world) :
  ensure_layout (ensure_layout w) = ensure_layout w.
Proof.
  destruct (ensure_objects_tsv_result w) as (c & Hc & Hne & Hfirst).
  assert (∃ h p, hash_count_tsv (ensure_layout w) = Some h ∧
                 processed_tsv (ensure_layout w) = Some p ∧
                 objects_tsv (ensure_layout w) = Some c) as (h & p & Hh & Hp & Ho).
  { unfold ensure_layout.
    destruct (hash_count_tsv (ensure_objects_tsv w)) as [h|] eqn:H1;
      destruct (processed_tsv _) as [p|] eqn:H2; simpl in *;
      eexists _, _; (split; [|split]); try done; by rewrite ?H1. }
  unfold ensure_layout at 1.
  rewrite (ensure_objects_tsv_fixed (ensure_layout w) c) by done.
  by rewrite Hh, Hp.
Qed.

(** X10. [ensure_layout] touches nothing but the three tables: markers,
    extracted objects and stored objects stay as they are; a processed
    table or a hash-count table that exists is kept as it is, and one that
    is missing is created empty. *)
Theorem ensure_layout_keeps_the_rest (w : world) :
  inflight_dir (ensure_layout w) = inflight_dir w ∧
  pdf_objects (ensure_layout w) = pdf_objects w ∧
  hashed_objects (ensure_layout w) = hashed_objects w ∧
  processed_tsv (ensure_layout w) = Some (default "" (processed_tsv w)) ∧
  hash_count_tsv (ensure_layout w) = Some (default "" (hash_count_tsv w)).
Proof.
  unfold ensure_layout, ensure_objects_tsv.
  destruct w as [o t hc p i po ho]. simpl.
  destruct o as [c|]; [destruct (String.eqb c ""); [|destruct (String.eqb _ _)]|];
    destruct hc, p; done.
Qed.

Lemma filter_fmap_length {A B} (f : A → B) (P : B → Prop) `{∀ x, Decision (P x)}
    (l : list A) :
  length (filter P (f <$> l)) = length (filter (λ x, P (f x)) l).
Proof.
  induction l as [|x l IH]; [done|]. rewrite fmap_cons, !filter_cons.
  destruct (decide (P (f x))); simpl; by rewrite IH.
Qed.

(** X11. The migration keeps every hash countable: the hash column of a
    migrated row (its fourth field) is the first field of the legacy row,
    so that in the migrated ledger the number of rows of a hash is the
    number of legacy rows that begin with it. *)
Theorem migration_keeps_hash_counts (content h : string) :
  ledger_count h (migration_text content)
  = length (filter (λ line, first_field line = Some h) (data_rows content)).
Proof.
  unfold ledger_count.
  assert (data_rows (migration_text content)
          = (λ b, b +:+ NL) <$> (migrated <$> (Py.rstrip_nl <$> data_rows content)))
    as ->.
  { unfold data_rows at 1. rewrite migration_text_rows, readlines_written; [done|].
    constructor; [by vm_compute|].
    apply Forall_fmap. eapply Forall_impl; [apply data_rows_not_eol|].
    intros r. apply migrated_not_eol. }
  rewrite <- !list_fmap_compose, filter_fmap_length.
  pose proof (data_rows_not_eol content) as Hrows.
  apply Forall_fmap in Hrows. induction Hrows as [|line ls Hline _ IH]; [done|].
  simpl in Hline.
  assert (hash_column (migrated (Py.rstrip_nl line) +:+ NL) = first_field line) as Heq.
  { unfold hash_column, first_field.
    rewrite rstrip_nl_body_nl by (by apply not_eol_no_lf, migrated_not_eol).
    rewrite migrated_split. simpl.
    pose proof (split_not_nil Py.TAB (Py.rstrip_nl line)).
    by destruct (Py.split Py.TAB (Py.rstrip_nl line)). }
  rewrite !filter_cons. simpl. rewrite Heq.
  destruct (decide _); simpl; [f_equal|]; exact IH.
Qed.

(** ** The dedup store, again *)

(** X12. Storing is idempotent on any store: once an object has been
    offered under a hash, offering that hash again, with the same or
    another file name and content, changes nothing. *)
Theorem copy_object_idempotent (name b name' b' sha : string) (d : gmap string string) :
  copy_object_if_new_by_hash name' b' sha (copy_object_if_new_by_hash name b sha d)
  = copy_object_if_new_by_hash name b sha d.
Proof.
  destruct (copy_cases name b sha d) as [[-> (n & Hn & Hby)]|[-> _]].
  - by apply (copy_blocked _ _ _ _ n).
  - apply (copy_blocked _ _ _ _ (sha +:+ capped_ext (Py.lower (Py.suffix name)))).
    + rewrite lookup_insert_eq. by eexists.
    + apply named_by_stored, stored_ext_shape.
Qed.

(** ** The hash-count aggregator, again *)

Section totals.
Implicit Types (m : gmap string nat).

Lemma sum_list_perm (l1 l2 : list nat) : l1 ≡ₚ l2 → sum_list l1 = sum_list l2.
Proof. induction 1; simpl; lia. Qed.

Lemma total_insert_fresh m k v :
  m !! k = None → total_count (map_to_list (<[k:=v]> m)) = v + total_count (map_to_list m).
Proof.
  intros H. unfold total_count.
  rewrite (sum_list_perm _ ((k, v) :: map_to_list m).*2); [done|].
  apply fmap_Permutation. by apply map_to_list_insert.
Qed.

Lemma total_bump m k :
  total_count (map_to_list (<[k := S (default 0 (m !! k))]> m))
  = S (total_count (map_to_list m)).
Proof.
  destruct (m !! k) as [v|] eqn:Hk; simpl.
  - rewrite <- (insert_delete_id m k v) at 2 by done.
    rewrite <- insert_delete_eq.
    rewrite !total_insert_fresh by apply lookup_delete_eq. lia.
  - by rewrite total_insert_fresh.
Qed.

Lemma count_line_hashed m line :
  count_line m line =
  if is_hashed line
  then <[nth 3 (Py.split Py.TAB (Py.rstrip_nl line)) "" :=
           S (default 0 (m !! nth 3 (Py.split Py.TAB (Py.rstrip_nl line)) ""))]> m
  else m.
Proof.
  unfold count_line, is_hashed, hash_column.
  set (parts := Py.split Py.TAB (Py.rstrip_nl line)).
  destruct (Nat.leb_spec 4 (length parts)) as [Hlen|Hlen].
  - destruct (lookup_lt_is_Some_2 parts 3) as [h3 Hh3]; [lia|].
    by rewrite nth_lookup, Hh3.
  - by rewrite lookup_ge_None_2 by lia.
Qed.

Lemma fold_count_total lines m :
  total_count (map_to_list (fold_left count_line lines m))
  = total_count (map_to_list m) + length (filter (λ l, is_hashed l = true) lines).
Proof.
  revert m. induction lines as [|l lines IH]; intros m; simpl; [lia|].
  rewrite IH, count_line_hashed, filter_cons.
  destruct (is_hashed l) eqn:Hl.
  - rewrite total_bump, decide_True by done. simpl. lia.
  - rewrite decide_False by done. lia.
Qed.

End totals.

(** X13. Nothing is lost and nothing is counted twice: the counts of the
    hash-count table add up to the number of data rows of the ledger that
    have an object hash (a non-empty fourth field). *)
Theorem hash_counts_add_up (content : string) :
  total_count (hash_count_rows content)
  = length (filter (λ line, is_hashed line = true) (data_rows content)).
Proof.
  unfold hash_count_rows, total_count.
  rewrite (sum_list_perm _ (map_to_list (fold_left count_line (data_rows content) ∅)).*2).
  2:{ apply fmap_Permutation. apply merge_sort_Permutation. }
  pose proof (fold_count_total (data_rows content) ∅) as H.
  unfold total_count in H. rewrite H, map_to_list_empty. done.
Qed.

(** X14. Appending one row to a ledger that has its header raises the
    count of that row's hash by one and leaves every other count as it is.
    On an empty ledger the appended row takes the place of the header, and
    is not counted. *)
Theorem ledger_count_after_append (content line h : string) :
  ends_with_newline content = true → all_chars not_eol line = true →
  (content ≠ "" →
     ledger_count h (content +:+ line +:+ NL)
     = ledger_count h content + (if decide (hash_column line = Some h) then 1 else 0)) ∧
  (content = "" → ledger_count h (content +:+ line +:+ NL) = 0).
Proof.
  intros Hnl Hline.
  assert (Py.readlines (line +:+ NL) = [line +:+ NL]) as Hone.
  { change [line +:+ NL] with ((λ b, b +:+ NL) <$> [line]).
    rewrite <- (readlines_written [line]) by (by constructor).
    simpl. by rewrite app_nil_r. }
  assert (hash_column (line +:+ NL) = hash_column line) as Hcol.
  { unfold hash_column.
    by rewrite rstrip_nl_body_nl, rstrip_nl_body by (by apply not_eol_no_lf). }
  unfold ledger_count, data_rows. split.
  - intros Hc. rewrite readlines_app, Hone by done.
    pose proof (readlines_not_nil content Hc) as Hr.
    destruct (Py.readlines content) as [|l ls]; [done|]. simpl.
    rewrite filter_app, List.length_app, filter_cons, filter_nil, Hcol.
    by destruct (decide _).
  - intros ->. by rewrite app_nil_l, Hone.
Qed.

Lemma ledger_count_after_append_witness :
  (OBJECTS_HEADER +:+ NL ≠ "" →
     ledger_count Demo.sha_a ((OBJECTS_HEADER +:+ NL) +:+ migrated Demo.sha_a +:+ NL)
     = ledger_count Demo.sha_a (OBJECTS_HEADER +:+ NL)
       + (if decide (hash_column (migrated Demo.sha_a) = Some Demo.sha_a)
          then 1 else 0)) ∧
  (OBJECTS_HEADER +:+ NL = "" →
     ledger_count Demo.sha_a ((OBJECTS_HEADER +:+ NL) +:+ migrated Demo.sha_a +:+ NL)
     = 0).
Proof.
  apply (ledger_count_after_append (OBJECTS_HEADER +:+ NL) (migrated Demo.sha_a)
           Demo.sha_a).
  - vm_compute. reflexivity.
  - vm_compute. reflexivity.
Defined.

(** ** Signature and metadata parsing, again *)

Section sigs.
Context (E : externals).

Lemma SIG_BLOCK_RE_range s n : SIG_BLOCK_RE s = Some n → 1 ≤ n ≤ 4.
Proof.
  unfold SIG_BLOCK_RE. destruct (Re.match_here _ s) as [[|d [|c rest]]|]; try done.
  destruct (Ascii.eqb c ":"); [|done].
  destruct d as [[] [] [] [] [] [] [] []]; try done; intros [= <-]; lia.
Qed.

Lemma sig_key_known cur slot :
  1 ≤ cur ≤ 4 → slot ∈ ["CN"; "TIME"; "RANGE"] →
  sig_key cur slot ∈ dom empty_sigs.
Proof.
  intros Hcur Hslot.
  assert (cur = 1 ∨ cur = 2 ∨ cur = 3 ∨ cur = 4) as Hc by lia.
  apply elem_of_dom.
  repeat (apply elem_of_cons in Hslot as [->|Hslot]);
    [..|by apply elem_of_nil in Hslot];
    destruct Hc as [->|[->|[->| ->]]]; by eexists.
Qed.

Lemma insert_known (sigs : gmap string string) k v :
  k ∈ dom sigs → dom (<[k:=v]> sigs) = dom sigs.
Proof.
  intros Hk. rewrite dom_insert_L. apply subseteq_union_1_L.
  by apply singleton_subseteq_l.
Qed.

Lemma parse_pdfsig_line_inv st line :
  st.1 ≤ 4 → dom st.2 = dom empty_sigs →
  (parse_pdfsig_line E st line).1 ≤ 4 ∧
  dom (parse_pdfsig_line E st line).2 = dom empty_sigs.
Proof.
  destruct st as [cur sigs]. simpl. intros Hcur Hdom. unfold parse_pdfsig_line.
  destruct (SIG_BLOCK_RE (Py.strip line)) as [n|] eqn:Hn.
  { apply SIG_BLOCK_RE_range in Hn. simpl. split; [lia|done]. }
  destruct cur as [|cur']; [done|].
  assert ((S cur' <=? 4)%nat = true) as Hle by (by apply Nat.leb_le).
  change (1 <=? S cur')%nat with true. rewrite Hle. cbn [andb negb].
  assert (∀ slot v, slot ∈ ["CN"; "TIME"; "RANGE"] →
            dom (<[sig_key (S cur') slot := v]> sigs) = dom empty_sigs) as Hins.
  { intros slot v Hslot. rewrite insert_known; [done|]. rewrite Hdom.
    apply sig_key_known; [lia|done]. }
  destruct (Re.search_group CN_RE line).
  { split; [done|]. apply Hins. by repeat constructor. }
  destruct (Re.search_group TIME_RE line).
  { split; [done|]. apply Hins. by repeat constructor. }
  destruct (Re.search_group RANGE_RE line).
  { split; [done|]. apply Hins. by repeat constructor. }
  done.
Qed.

Lemma parse_pdfsig_fold_inv lines st :
  st.1 ≤ 4 → dom st.2 = dom empty_sigs →
  dom (fold_left (parse_pdfsig_line E) lines st).2 = dom empty_sigs.
Proof.
  revert st. induction lines as [|l lines IH]; intros st Hcur Hdom; [done|].
  simpl. destruct (parse_pdfsig_line_inv st l Hcur Hdom) as [? ?]. by apply IH.
Qed.

Lemma parse_pdfsig_fold_no_header lines :
  Forall (λ line, SIG_BLOCK_RE (Py.strip line) = None) lines →
  fold_left (parse_pdfsig_line E) lines (0, empty_sigs) = (0, empty_sigs).
Proof.
  induction 1 as [|l lines Hl _ IH]; [done|]. simpl. by rewrite Hl.
Qed.

End sigs.

(** X15. Whatever [pdfsig] prints, [parse_pdfsig] returns a dictionary
    with exactly the twelve keys it starts from: no key is added or
    removed. A failed run, an empty output, and an output without any
    header of a block 1 to 4 all give twelve empty values: what comes
    before the first header is ignored. *)
Theorem parse_pdfsig_keys (E : externals) (r : completed) :
  dom (parse_pdfsig_output E r) = dom empty_sigs ∧
  (returncode r ≠ 0%Z ∨ stdout r = "" ∨
   Forall (λ line, SIG_BLOCK_RE (Py.strip line) = None) (Py.splitlines (stdout r)) →
   parse_pdfsig_output E r = empty_sigs).
Proof.
  unfold parse_pdfsig_output. split.
  - destruct (_ || _); [done|]. by apply parse_pdfsig_fold_inv; [simpl; lia|].
  - intros [Hrc|[Hout|Hnone]].
    + apply Z.eqb_neq in Hrc. by rewrite Hrc.
    + rewrite Hout. by rewrite orb_true_r.
    + destruct (_ || _); [done|]. by rewrite parse_pdfsig_fold_no_header.
Qed.

Section author.

Let step (ac : string * string) (line : string) : string * string :=
  let line := Py.strip line in
  if String.eqb line "" then ac
  else if String.eqb ac.1 "" then (line, ac.2)
  else if String.eqb ac.2 "" then (ac.1, line)
  else ac.

Let nb (ls : list string) : list string := filter (λ l, l ≠ "") (Py.strip <$> ls).

Lemma meta_full ls a c : a ≠ "" → c ≠ "" → fold_left step ls (a, c) = (a, c).
Proof.
  intros Ha Hc. induction ls as [|l ls IH]; [done|]. simpl.
  replace (step (a, c) l) with (a, c); [done|].
  unfold step. simpl. apply String.eqb_neq in Ha, Hc. rewrite Ha, Hc.
  by destruct (String.eqb (Py.strip l) "").
Qed.

Lemma meta_half ls a : a ≠ "" → fold_left step ls (a, "") = (a, nth 0 (nb ls) "").
Proof.
  intros Ha. induction ls as [|l ls IH]; [done|]. simpl.
  unfold nb. rewrite fmap_cons, filter_cons. fold (nb ls).
  unfold step at 2. simpl. apply String.eqb_neq in Ha as Ha'. rewrite Ha'.
  destruct (String.eqb_spec (Py.strip l) "") as [Hl|Hl].
  - rewrite decide_False by (by intros ?). apply IH.
  - rewrite decide_True by done. simpl. by apply meta_full.
Qed.

Lemma meta_start ls :
  fold_left step ls ("", "") = (nth 0 (nb ls) "", nth 1 (nb ls) "").
Proof.
  induction ls as [|l ls IH]; [done|]. simpl.
  unfold nb. rewrite fmap_cons, filter_cons. fold (nb ls).
  unfold step at 2. simpl.
  destruct (String.eqb_spec (Py.strip l) "") as [Hl|Hl].
  - rewrite decide_False by (by intros ?). apply IH.
  - rewrite decide_True by done. simpl. by apply meta_half.
Qed.

End author.

(** X16. [get_author_creator] returns the first two non-blank lines of the
    [exiftool] output, stripped, as author and creator, and two empty texts
    when the tool fails. It does not look at which tag a line comes from:
    when only one value is printed, it is taken for the author, and the
    creator is empty. *)
Theorem get_author_creator_spec (E : externals) (pdf_bytes : string) :
  get_author_creator E pdf_bytes =
  if (returncode (exiftool E pdf_bytes) =? 0)%Z
  then (nth 0 (nonblank_lines (stdout (exiftool E pdf_bytes))) "",
        nth 1 (nonblank_lines (stdout (exiftool E pdf_bytes))) "")
  else ("", "").
Proof.
  unfold get_author_creator. destruct (_ =? _)%Z; [|done].
  apply meta_start.
Qed.

(** ** The scan, again *)

Lemma for_each_filter {A} (P : A → bool) (body : A → M unit) (l : list A) w :
  for_each l (λ x, if P x then body x else mret tt) w
  = for_each (filter (λ x, P x = true) l) body w.
Proof.
  revert w. induction l as [|x l IH]; intros w; [done|].
  rewrite filter_cons. simpl. destruct (P x) eqn:HP.
  - rewrite decide_True by done. simpl. unfold mbind, M_bind.
    destruct (body x w) as [w' [[]|e]]; [apply IH|done].
  - rewrite decide_False by done. unfold mbind, M_bind. simpl. apply IH.
Qed.

Global Instance entry_le_trans : Transitive entry_le.
Proof. intros a b c. unfold entry_le. apply transitivity. Qed.

Global Instance entry_le_total : Total entry_le.
Proof. intros a b. unfold entry_le. apply (total String.le). Qed.

Lemma NoDup_fmap_elem_inj {A B} (f : A → B) (l : list A) x y :
  NoDup (f <$> l) → x ∈ l → y ∈ l → f x = f y → x = y.
Proof.
  induction l as [|z l IH]; [by intros _ ?%elem_of_nil|].
  rewrite fmap_cons. intros [Hz Hnd]%NoDup_cons Hx Hy Hf.
  apply elem_of_cons in Hx as [->|Hx]; apply elem_of_cons in Hy as [->|Hy].
  - done.
  - exfalso. apply Hz. rewrite Hf. apply list_elem_of_fmap. by exists y.
  - exfalso. apply Hz. rewrite <- Hf. apply list_elem_of_fmap. by exists x.
  - by apply IH.
Qed.

(** X17. [scan_once] runs [process_pdf], in the order of the names, on
    the regular files whose name ends in [.pdf], and on nothing else:
    directories and other names are passed over. With pairwise different
    names, the order in which the directory lists its entries does not
    matter. *)
Theorem scan_once_selection (E : externals) (entries : list dir_entry) (w : world) :
  scan_once E (Some entries) w
  = for_each (filter (λ p, selected p = true) (merge_sort entry_le entries))
             (λ p, process_pdf E (entry_name p) (entry_doc p)) w ∧
  (∀ entries', entries' ≡ₚ entries → NoDup (entry_name <$> entries) →
     scan_once E (Some entries') w = scan_once E (Some entries) w).
Proof.
  split.
  - unfold scan_once. apply (for_each_filter selected).
  - intros entries' Hperm Hnd. unfold scan_once. f_equal.
    apply (StronglySorted_unique_strong entry_le).
    + intros x1 x2 H1 H2 H12 H21.
      rewrite merge_sort_Permutation in H1, H2. rewrite Hperm in H1.
      apply (NoDup_fmap_elem_inj entry_name entries); [done..|].
      by apply (anti_symm String.le).
    + apply (StronglySorted_merge_sort _).
    + apply (StronglySorted_merge_sort _).
    + by rewrite !merge_sort_Permutation.
Qed.

(** ** What a run never does *)

Global Instance only_adds_refl : Reflexive only_adds.
Proof.
  intros w. split; [|split].
  - exists "". by rewrite app_nil_r.
  - by intros n v H.
  - exists "". by rewrite app_nil_r.
Qed.

Global Instance only_adds_trans : Transitive only_adds.
Proof.
  intros w1 w2 w3 ([s1 H1] & Hs1 & [t1 Ht1]) ([s2 H2] & Hs2 & [t2 Ht2]).
  split; [|split].
  - exists (s1 +:+ s2). by rewrite H2, H1, app_assoc.
  - intros n v H. by apply Hs2, Hs1.
  - exists (t1 +:+ t2). by rewrite Ht2, Ht1, app_assoc.
Qed.

Lemma only_adds_same (w w' : world) :
  objects_tsv w' = objects_tsv w → hashed_objects w' = hashed_objects w →
  processed_tsv w' = processed_tsv w → only_adds w w'.
Proof.
  intros H1 H2 H3. split; [|split].
  - exists "". by rewrite H1, app_nil_r.
  - intros n v H. by rewrite H2.
  - exists "". by rewrite H3, app_nil_r.
Qed.

Section grows.
Context {A B : Type}.

Lemma grows_ret (a : A) : grows only_adds (mret a).
Proof. by intros w. Qed.

Lemma grows_raise e : grows only_adds (@raise A e).
Proof. by intros w. Qed.

Lemma grows_bind (m : M A) (k : A → M B) :
  grows only_adds m → (∀ a, grows only_adds (k a)) → grows only_adds (m ≫= k).
Proof.
  intros Hm Hk w. unfold mbind, M_bind. specialize (Hm w).
  destruct (m w) as [w' [a|e]]; simpl in *; [|done].
  etrans; [exact Hm|apply Hk].
Qed.

Lemma grows_try_finally (m : M A) (fin : world → world) :
  grows only_adds m → (∀ w, only_adds w (fin w)) →
  grows only_adds (try_finally m fin).
Proof.
  intros Hm Hf w. unfold try_finally. specialize (Hm w).
  destruct (m w) as [w' r]; simpl in *. etrans; [exact Hm|apply Hf].
Qed.
End grows.

Lemma grows_get : grows only_adds get_world.
Proof. by intros w. Qed.

Lemma grows_modify (g : world → world) :
  (∀ w, only_adds w (g w)) → grows only_adds (modify g).
Proof. intros Hg w. apply Hg. Qed.

Lemma grows_for_each {A} (l : list A) (body : A → M unit) :
  (∀ x, grows only_adds (body x)) → grows only_adds (for_each l body).
Proof.
  intros Hb. induction l as [|x l IH]; simpl.
  - apply grows_ret.
  - apply grows_bind; [apply Hb|by intros _].
Qed.

Lemma record_processed_only_adds E sha name size mt w :
  only_adds w (record_processed E sha name size mt w).
Proof.
  split; [|split].
  - exists "". by rewrite app_nil_r.
  - by intros n v H.
  - by eexists.
Qed.

Lemma ingest_object_grows E name safe fields sigmeta obj :
  grows only_adds (ingest_object E name safe fields sigmeta obj).
Proof.
  unfold ingest_object. destruct obj as [fn b].
  destruct (String.eqb fn STAMP); [apply grows_ret|].
  destruct (unreadable E _); [apply grows_raise|].
  destruct fields as [[c ft] fd].
  apply grows_bind; [|intros _]; apply grows_modify; intros w.
  - split; [|split].
    + by eexists.
    + by intros n v H.
    + exists "". by rewrite app_nil_r.
  - split; [|split].
    + exists "". by rewrite app_nil_r.
    + intros n v H. by apply copy_preserves.
    + exists "". by rewrite app_nil_r.
Qed.

Lemma process_body_grows E name f sha safe :
  grows only_adds (process_body E name f sha safe).
Proof.
  unfold process_body.
  apply grows_bind; [|intros _].
  { unfold extract_with_mutool.
    apply grows_bind; [apply grows_modify; intros w; by apply only_adds_same|intros _].
    destruct (negb _); [|apply grows_ret].
    destruct (mutool_outdir E (bytes f)) as [written ok].
    apply grows_bind; [apply grows_modify; intros w; by apply only_adds_same|intros _].
    destruct ok; [apply grows_ret|apply grows_raise]. }
  apply grows_bind; [apply grows_get|intros w0].
  apply grows_bind; [apply grows_for_each; intros obj; apply ingest_object_grows|intros _].
  apply grows_bind; [apply grows_modify; intros w; by apply only_adds_same|intros _].
  apply grows_bind; [apply grows_modify; intros w; apply record_processed_only_adds|intros _].
  apply grows_bind.
  { apply grows_modify. intros w. unfold update_hash_counts.
    by destruct (objects_tsv w); apply only_adds_same. }
  intros _. unfold report_rows.
  apply grows_bind; [apply grows_get|intros w].
  destruct (objects_tsv w) as [c|]; [|apply grows_raise].
  destruct (Py.readlines c); [apply grows_raise|apply grows_ret].
Qed.

Lemma process_pdf_grows E name doc : grows only_adds (process_pdf E name doc).
Proof.
  unfold process_pdf, process_settled.
  destruct (settled doc) as [f|]; [|apply grows_ret].
  apply grows_bind; [apply grows_get|intros w].
  destruct (has_inflight w _); [apply grows_ret|].
  case_bool_decide; [apply grows_ret|].
  case_bool_decide.
  - case_bool_decide; [|apply grows_ret].
    apply grows_modify. intros w'. apply record_processed_only_adds.
  - apply grows_bind; [apply grows_modify; intros w'; by apply only_adds_same|intros _].
    apply grows_try_finally; [apply process_body_grows|].
    intros w'. by apply only_adds_same.
Qed.

(** X19. No run loses data. Whatever the tools return and whether the
    run ends normally or raises, [process_pdf] leaves the former text of
    the ledger and of the processed table in place, adding at most at
    their ends, and leaves every object of the dedup store in place with
    its content. The same holds of a whole scan, also one that a failure
    cuts short, and of the handling of a file-system event. *)
Theorem runs_only_add (E : externals) :
  (∀ name doc, grows only_adds (process_pdf E name doc)) ∧
  (∀ pdf_dir, grows only_adds (scan_once E pdf_dir)) ∧
  (∀ event, grows only_adds (on_created E event)) ∧
  (∀ event, grows only_adds (on_moved E event)).
Proof.
  assert (∀ event, grows only_adds (on_created E event)) as Hev.
  { intros event. unfold on_created.
    destruct (event_is_directory event); [apply grows_ret|].
    destruct (Re.search_dollar _ _); [apply process_pdf_grows|apply grows_ret]. }
  split; [apply process_pdf_grows|]. split; [|by split].
  intros [entries|]; [|apply grows_ret]. unfold scan_once.
  apply grows_for_each. intros p. unfold scan_entry.
  destruct (_ && _); [apply process_pdf_grows|apply grows_ret].
Qed.

(** ** A run that succeeds, described *)

(** X20. A run that succeeds. Let [process_pdf] find a document that no
    gate skips and whose name gives a directory of its own; let the
    extraction not fail, every object of the output directory be readable
    and the ledger have its header. Then the run returns normally, and for
    some listing of the objects of the output directory (its files but the
    stamp) it leaves: the ledger with one line more for every object, in
    the order of the listing; the store with these objects written through
    the dedup rule, in the same order; the stamp with the digest of the
    document in the output directory; one record more in the processed
    table; the counts recomputed from the new ledger; and the directory of
    markers and the temporary ledger as they were. *)
Theorem run_described (E : externals) (w : world) (name : string) (doc : document)
    (f : file) (ledger : string) :
  own_directory (safe_name name) = true →
  settled doc = Some f →
  has_inflight w (sha256_hexdigest E (bytes f)) = false →
  sha256_hexdigest E (bytes f) ∉ load_processed_shas w →
  Py.strip ∘ Py.universal_newlines <$> (outdir_of w (safe_name name) !! STAMP)
    ≠ Some (sha256_hexdigest E (bytes f)) →
  extraction_ok E f →
  (∀ fn b, objects_of (run_dir E w name f) !! fn = Some b →
           unreadable E (safe_name name +:+ "/" +:+ fn) = false) →
  objects_tsv w = Some ledger → ledger ≠ "" →
  ∃ objs w',
    objs ≡ₚ map_to_list (objects_of (run_dir E w name f)) ∧
    process_pdf E name doc w = (w', Ok tt) ∧
    objects_tsv w'
    = Some (ledger +:+
            concat_strings
              (object_line E name (safe_name name) (per_pdf_sig_and_meta E (bytes f))
                 <$> objs)) ∧
    hashed_objects w' = store_all (object_call E <$> objs) (hashed_objects w) ∧
    pdf_objects w'
    = <[safe_name name :=
          <[STAMP := sha256_hexdigest E (bytes f) +:+ NL]> (run_dir E w name f)]>
        (pdf_objects w) ∧
    processed_tsv w'
    = append_text (processed_tsv w)
        (processed_record E (sha256_hexdigest E (bytes f)) name
           (String.length (bytes f)) (mtime f)) ∧
    hash_count_tsv w'
    = Some (hash_count_text (hash_count_rows
        (ledger +:+
         concat_strings
           (object_line E name (safe_name name) (per_pdf_sig_and_meta E (bytes f))
              <$> objs)))) ∧
    inflight_dir w' = inflight_dir w ∧
    objects_tsv_tmp w' = objects_tsv_tmp w.
Proof.
  intros _ Hd Hin Hp Hs Hok Hread Hw Hne.
  destruct (run_unskipped E w name doc f Hd Hin Hp Hs) as [Hrun Hmark].
  assert (Forall (λ obj, unreadable E (safe_name name +:+ "/" +:+ obj.1) = false)
            (filter (λ obj, is_object obj = true) (map_to_list (run_dir E w name f))))
    as Hall.
  { apply Forall_forall. intros [fn b] Hin'.
    rewrite objects_listing in Hin'. apply elem_of_map_to_list in Hin'.
    by apply (Hread fn b). }
  pose proof (process_body_succeeds E name f
                (mark_inflight E (sha256_hexdigest E (bytes f)) w) ledger
                Hok Hall Hw Hne) as Hbody.
  rewrite Hbody in Hrun, Hmark. simpl fst in Hrun, Hmark. simpl snd in Hrun.
  pose proof (completed_ledger E name f
                (mark_inflight E (sha256_hexdigest E (bytes f)) w) ledger Hw)
    as Hledger.
  exists (filter (λ obj, is_object obj = true) (map_to_list (run_dir E w name f))).
  eexists. split; [apply objects_listing|]. split; [exact Hrun|].
  unfold clear_inflight.
  split; [exact Hledger|].
  split; [exact (completed_store E name f (mark_inflight E _ w))|].
  split; [exact (completed_dirs E name f (mark_inflight E _ w))|].
  split; [exact (completed_table E name f (mark_inflight E _ w))|].
  split; [exact (completed_counts E name f (mark_inflight E _ w) _ Hledger)|].
  split; [exact Hmark|exact (completed_tmp E name f (mark_inflight E _ w))].
Qed.

Lemma run_described_witness :
  ∃ objs w',
    objs ≡ₚ map_to_list
              (objects_of (run_dir Demo.tools Demo.fresh "a.pdf" (File "hello" 7))) ∧
    process_pdf Demo.tools "a.pdf" (Demo.still "hello") Demo.fresh = (w', Ok tt) ∧
    objects_tsv w'
    = Some ((OBJECTS_HEADER +:+ NL) +:+
            concat_strings
              (object_line Demo.tools "a.pdf" (safe_name "a.pdf")
                           (per_pdf_sig_and_meta Demo.tools "hello")
                 <$> objs)) ∧
    hashed_objects w'
    = store_all (object_call Demo.tools <$> objs) (hashed_objects Demo.fresh) ∧
    pdf_objects w'
    = <[safe_name "a.pdf" :=
          <[STAMP := sha256_hexdigest Demo.tools "hello" +:+ NL]>
            (run_dir Demo.tools Demo.fresh "a.pdf" (File "hello" 7))]>
        (pdf_objects Demo.fresh) ∧
    processed_tsv w'
    = append_text (processed_tsv Demo.fresh)
        (processed_record Demo.tools (sha256_hexdigest Demo.tools "hello") "a.pdf" 5 7) ∧
    hash_count_tsv w'
    = Some (hash_count_text (hash_count_rows
        ((OBJECTS_HEADER +:+ NL) +:+
         concat_strings
           (object_line Demo.tools "a.pdf" (safe_name "a.pdf")
                        (per_pdf_sig_and_meta Demo.tools "hello")
              <$> objs)))) ∧
    inflight_dir w' = inflight_dir Demo.fresh ∧
    objects_tsv_tmp w' = objects_tsv_tmp Demo.fresh.
Proof.
  apply (run_described Demo.tools Demo.fresh "a.pdf" (Demo.still "hello")
           (File "hello" 7) (OBJECTS_HEADER +:+ NL)).
  - vm_compute. reflexivity.
  - reflexivity.
  - vm_compute. reflexivity.
  - change (load_processed_shas Demo.fresh) with (∅ : gset string).
    apply not_elem_of_empty.
  - vm_compute. discriminate.
  - right. vm_compute. reflexivity.
  - reflexivity.
  - vm_compute. reflexivity.
  - vm_compute. discriminate.
Defined.

(** X21. An extraction that succeeds at its first attempt extracts
    nothing into the output directory: the tool has then run in the
    working directory, the root above [pdf-objects], and the output
    directory is not looked at again. For a document whose name gives a
    directory of its own and whose output directory did not exist, the run
    returns normally, adds no line to the ledger and no object to the
    store, and yet writes the stamp and records the document as
    processed. *)
Theorem first_attempt_extracts_nothing (E : externals) (w : world) (name : string)
    (doc : document) (f : file) (ledger : string) :
  own_directory (safe_name name) = true →
  settled doc = Some f →
  has_inflight w (sha256_hexdigest E (bytes f)) = false →
  sha256_hexdigest E (bytes f) ∉ load_processed_shas w →
  mutool_cwd E (bytes f) = 0%Z →
  pdf_objects w !! safe_name name = None →
  objects_tsv w = Some ledger → ledger ≠ "" →
  ∃ w', process_pdf E name doc w = (w', Ok tt) ∧
    objects_tsv w' = Some ledger ∧
    hashed_objects w' = hashed_objects w ∧
    pdf_objects w'
    = <[safe_name name := {[STAMP := sha256_hexdigest E (bytes f) +:+ NL]}]>
        (pdf_objects w) ∧
    processed_tsv w'
    = append_text (processed_tsv w)
        (processed_record E (sha256_hexdigest E (bytes f)) name
           (String.length (bytes f)) (mtime f)).
Proof.
  intros _ Hd Hin Hp Hrc Hdir Hw Hne.
  assert (outdir_of w (safe_name name) = ∅) as Hout.
  { unfold outdir_of. by rewrite Hdir. }
  assert (run_dir E (mark_inflight E (sha256_hexdigest E (bytes f)) w) name f = ∅)
    as Hrun_dir.
  { unfold run_dir. rewrite Hrc. exact Hout. }
  destruct (run_unskipped E w name doc f Hd Hin Hp) as [Hrun _].
  { by rewrite Hout, lookup_empty. }
  pose proof (process_body_succeeds E name f
                (mark_inflight E (sha256_hexdigest E (bytes f)) w) ledger) as Hbody.
  rewrite Hrun_dir, map_to_list_empty in Hbody.
  rewrite Hbody in Hrun by (done || by left || by rewrite filter_nil).
  simpl fst in Hrun. simpl snd in Hrun.
  eexists. split; [exact Hrun|].
  unfold clear_inflight.
  split; [|split; [|split]].
  - change (objects_tsv (set_inflight_dir ?v ?x)) with (objects_tsv x).
    rewrite (completed_ledger _ _ _ _ ledger) by done.
    by rewrite Hrun_dir, map_to_list_empty, filter_nil, app_nil_r.
  - change (hashed_objects (set_inflight_dir ?v ?x)) with (hashed_objects x).
    rewrite completed_store.
    by rewrite Hrun_dir, map_to_list_empty, filter_nil.
  - change (pdf_objects (set_inflight_dir ?v ?x)) with (pdf_objects x).
    by rewrite completed_dirs, Hrun_dir.
  - change (processed_tsv (set_inflight_dir ?v ?x)) with (processed_tsv x).
    by rewrite completed_table.
Qed.

Lemma first_attempt_extracts_nothing_witness :
  ∃ w', process_pdf Demo.tools_cwd "a.pdf" (Demo.still "hello") Demo.fresh = (w', Ok tt) ∧
    objects_tsv w' = Some (OBJECTS_HEADER +:+ NL) ∧
    hashed_objects w' = hashed_objects Demo.fresh ∧
    pdf_objects w'
    = <[safe_name "a.pdf" := {[STAMP := sha256_hexdigest Demo.tools_cwd "hello" +:+ NL]}]>
        (pdf_objects Demo.fresh) ∧
    processed_tsv w'
    = append_text (processed_tsv Demo.fresh)
        (processed_record Demo.tools_cwd (sha256_hexdigest Demo.tools_cwd "hello")
           "a.pdf" 5 7).
Proof.
  apply (first_attempt_extracts_nothing Demo.tools_cwd Demo.fresh "a.pdf"
           (Demo.still "hello") (File "hello" 7) (OBJECTS_HEADER +:+ NL)).
  - vm_compute. reflexivity.
  - reflexivity.
  - vm_compute. reflexivity.
  - change (load_processed_shas Demo.fresh) with (∅ : gset string).
    apply not_elem_of_empty.
  - reflexivity.
  - vm_compute. reflexivity.
  - vm_compute. reflexivity.
  - vm_compute. discriminate.
Defined.

(** ** The stamp as a second record *)

(** X22. The stamp backfills the processed table. When the output
    directory of a document holds the stamp of its digest and the
    processed table does not list the digest, [process_pdf] extracts
    nothing and only appends the record of the document: ledger, store and
    output directories stay as they are. The digest is then in the
    processed set, and any later run on a document of this digest, under
    whatever name, changes nothing. *)
Theorem stamp_backfills_table (E : externals) (w : world) (name : string)
    (doc : document) (f : file) :
  externals_ok E → processed_wf w → all_chars not_eol name = true →
  settled doc = Some f →
  has_inflight w (sha256_hexdigest E (bytes f)) = false →
  sha256_hexdigest E (bytes f) ∉ load_processed_shas w →
  Py.strip ∘ Py.universal_newlines <$> (outdir_of w (safe_name name) !! STAMP)
    = Some (sha256_hexdigest E (bytes f)) →
  process_pdf E name doc w
  = (record_processed E (sha256_hexdigest E (bytes f)) name
       (String.length (bytes f)) (mtime f) w, Ok tt) ∧
  sha256_hexdigest E (bytes f)
    ∈ load_processed_shas
        (record_processed E (sha256_hexdigest E (bytes f)) name
           (String.length (bytes f)) (mtime f) w) ∧
  (∀ name' doc' f',
     settled doc' = Some f' →
     sha256_hexdigest E (bytes f') = sha256_hexdigest E (bytes f) →
     process_pdf E name' doc'
       (record_processed E (sha256_hexdigest E (bytes f)) name
          (String.length (bytes f)) (mtime f) w)
     = (record_processed E (sha256_hexdigest E (bytes f)) name
          (String.length (bytes f)) (mtime f) w, Ok tt)).
Proof.
  intros HE Hwf Hname Hd Hin Hp Hs.
  assert (sha256_hexdigest E (bytes f)
            ∈ load_processed_shas
                (record_processed E (sha256_hexdigest E (bytes f)) name
                   (String.length (bytes f)) (mtime f) w)) as Hloaded.
  { pose proof (proj1 HE (bytes f)) as Hhex.
    apply load_spec. split; [by apply hexdigest_not_empty|].
    destruct (record_first_field E (sha256_hexdigest E (bytes f)) name
                (String.length (bytes f)) (mtime f) Hhex) as (line & Hline & Hfield).
    exists line. split; [|done]. unfold record_processed.
    change (processed_tsv (set_processed_tsv ?v w)) with v.
    rewrite append_readlines by done. apply elem_of_app. by right. }
  split; [|split; [done|]].
  - unfold process_pdf. rewrite Hd. by apply settled_stamped.
  - intros name' doc' f' Hd' Hsha. unfold process_pdf. rewrite Hd'.
    apply settled_processed. by rewrite Hsha.
Qed.

Lemma stamp_backfills_table_witness :
  process_pdf Demo.tools "MCRO_1_M_2024.pdf" (Demo.still "hello") Demo.table_lost
  = (record_processed Demo.tools (sha256_hexdigest Demo.tools "hello")
       "MCRO_1_M_2024.pdf" 5 7 Demo.table_lost, Ok tt) ∧
  sha256_hexdigest Demo.tools "hello"
    ∈ load_processed_shas
        (record_processed Demo.tools (sha256_hexdigest Demo.tools "hello")
           "MCRO_1_M_2024.pdf" 5 7 Demo.table_lost) ∧
  (∀ name' doc' f',
     settled doc' = Some f' →
     sha256_hexdigest Demo.tools (bytes f') = sha256_hexdigest Demo.tools "hello" →
     process_pdf Demo.tools name' doc'
       (record_processed Demo.tools (sha256_hexdigest Demo.tools "hello")
          "MCRO_1_M_2024.pdf" 5 7 Demo.table_lost)
     = (record_processed Demo.tools (sha256_hexdigest Demo.tools "hello")
          "MCRO_1_M_2024.pdf" 5 7 Demo.table_lost, Ok tt)).
Proof.
  apply (stamp_backfills_table Demo.tools Demo.table_lost "MCRO_1_M_2024.pdf"
           (Demo.still "hello") (File "hello" 7)).
  - apply demo_tools_ok.
  - reflexivity.
  - reflexivity.
  - reflexivity.
  - vm_compute. reflexivity.
  - change (load_processed_shas Demo.table_lost) with (∅ : gset string).
    apply not_elem_of_empty.
  - vm_compute. reflexivity.
Defined.

(** ** The font name *)

Lemma all_chars_rev_app P s acc :
  all_chars P (String.rev_app s acc) = all_chars P s && all_chars P acc.
Proof.
  revert acc. induction s as [|a s IH]; intros acc; [done|].
  simpl. rewrite IH. simpl. by destruct (P a), (all_chars P s).
Qed.

Lemma all_chars_rev P s : all_chars P (String.rev s) = all_chars P s.
Proof.
  unfold String.rev. rewrite all_chars_rev_app. simpl. apply andb_true_r.
Qed.

Lemma splitlines_aux_clean_tail s :
  (∀ cur, all_chars no_linebreak cur = true →
     Forall (λ l, all_chars no_linebreak l = true) (Py.splitlines_aux cur s)) ∧
  (∀ cur, all_chars no_linebreak cur = true →
     Forall (λ l, all_chars no_linebreak l = true)
            (Py.splitlines_aux cur (match s with String _ s' => s' | _ => "" end))).
Proof.
  assert (∀ cur, all_chars no_linebreak cur = true →
            Forall (λ l, all_chars no_linebreak l = true) (Py.splitlines_aux cur ""))
    as Hnil.
  { intros cur Hcur. simpl. destruct cur; [constructor|].
    constructor; [by rewrite all_chars_rev|constructor]. }
  induction s as [|a s [IH IHtail]]; [by split|].
  split; [|exact IH].
  intros cur Hcur. simpl. destruct (Py.is_linebreak a) eqn:Ha.
  - constructor; [by rewrite all_chars_rev|].
    destruct s as [|b s']; [constructor|].
    destruct (Ascii.eqb a Py.CR && Ascii.eqb b Py.LF); [by apply IHtail|by apply IH].
  - apply IH. simpl. unfold no_linebreak at 1. by rewrite Ha.
Qed.

Lemma splitlines_clean s :
  Forall (λ l, all_chars no_linebreak l = true) (Py.splitlines s).
Proof. by apply splitlines_aux_clean_tail. Qed.

Lemma lstrip_all_chars P s :
  all_chars P s = true → all_chars P (Py.lstrip s) = true.
Proof.
  induction s as [|a s IH]; [done|]. simpl. intros H.
  destruct (Py.isspace a); [|done].
  apply IH. by apply andb_true_iff in H as [_ H].
Qed.

Lemma rstrip_all_chars P s :
  all_chars P s = true → all_chars P (Py.rstrip s) = true.
Proof.
  induction s as [|a s IH]; [done|]. simpl.
  intros [Ha Hs]%andb_true_iff. specialize (IH Hs).
  destruct (Py.rstrip s) as [|b r].
  - destruct (Py.isspace a); [done|]. simpl. by rewrite Ha.
  - simpl. simpl in IH. by rewrite Ha.
Qed.

Lemma after_first_colon_all_chars P s :
  all_chars P s = true → all_chars P (after_first_colon s) = true.
Proof.
  induction s as [|a s IH]; [done|]. simpl.
  intros [Ha Hs]%andb_true_iff. destruct (Ascii.eqb a ":"); [done|by apply IH].
Qed.

Lemma rstrip_head s a r :
  Py.rstrip s = String a r → ∃ s', s = String a s'.
Proof.
  destruct s as [|b s]; [done|]. simpl.
  destruct (Py.rstrip s).
  - destruct (Py.isspace b); [done|]. intros [= -> _]. by eexists.
  - intros [= -> _]. by eexists.
Qed.

Lemma rstrip_idemp s : Py.rstrip (Py.rstrip s) = Py.rstrip s.
Proof.
  induction s as [|a s IH]; [done|]. simpl.
  destruct (Py.rstrip s) as [|b r] eqn:Hr.
  - destruct (Py.isspace a) eqn:Ha; [done|]. simpl. by rewrite Ha.
  - change (Py.rstrip (String a (String b r)))
      with (match Py.rstrip (String b r) with
            | EmptyString => if Py.isspace a then EmptyString else String a EmptyString
            | r' => String a r'
            end).
    by rewrite IH.
Qed.

Lemma lstrip_head s a r : Py.lstrip s = String a r → Py.isspace a = false.
Proof.
  induction s as [|b s IH]; [done|]. simpl.
  destruct (Py.isspace b) eqn:Hb; [done|]. by intros [= <- _].
Qed.

Lemma strip_idemp s : Py.strip (Py.strip s) = Py.strip s.
Proof.
  unfold Py.strip.
  destruct (Py.rstrip (Py.lstrip s)) as [|a r] eqn:Hr; [done|].
  destruct (rstrip_head _ _ _ Hr) as [s' Hs'].
  apply lstrip_head in Hs' as Ha.
  change (Py.lstrip (String a r)) with (if Py.isspace a then Py.lstrip r else String a r).
  rewrite Ha, <- Hr. apply rstrip_idemp.
Qed.

Lemma strip_all_chars P s : all_chars P s = true → all_chars P (Py.strip s) = true.
Proof. intros H. by apply rstrip_all_chars, lstrip_all_chars. Qed.

(** X23. The font name fits in one field of a line. Whatever the tools
    print, [get_font_name] returns a text without any line boundary and
    without white space at either end; it is empty when the extension is
    not one of the font extensions, and when both tools fail. *)
Theorem font_name_one_line (E : externals) (obj_name obj_bytes : string) :
  all_chars no_linebreak (get_font_name E obj_name obj_bytes) = true ∧
  Py.strip (get_font_name E obj_name obj_bytes) = get_font_name E obj_name obj_bytes ∧
  (Py.lower (Py.suffix obj_name) ∉ FONT_EXTS → get_font_name E obj_name obj_bytes = "") ∧
  (returncode (otfinfo E obj_bytes) ≠ 0%Z → returncode (fc_scan E obj_bytes) ≠ 0%Z →
   get_font_name E obj_name obj_bytes = "").
Proof.
  unfold get_font_name.
  destruct (bool_decide (Py.lower (Py.suffix obj_name) ∈ FONT_EXTS)) eqn:Hext; simpl.
  2:{ by repeat split. }
  apply bool_decide_eq_true in Hext.
  destruct (if (returncode (otfinfo E obj_bytes) =? 0)%Z
            then List.find (Py.startswith "Full name:")
                           (Py.splitlines (stdout (otfinfo E obj_bytes)))
            else None) as [line|] eqn:Hfind.
  - destruct (Z.eqb_spec (returncode (otfinfo E obj_bytes)) 0) as [Hrc|Hrc]; [|done].
    apply find_some in Hfind as [Hline _].
    pose proof (splitlines_clean (stdout (otfinfo E obj_bytes))) as Hall.
    rewrite List.Forall_forall in Hall. specialize (Hall _ Hline).
    split; [by apply strip_all_chars, after_first_colon_all_chars|].
    split; [apply strip_idemp|]. split; [done|]. intros H. by destruct H.
  - destruct (Z.eqb_spec (returncode (fc_scan E obj_bytes)) 0) as [Hrc|Hrc]; simpl.
    2:{ by repeat split. }
    destruct (String.eqb (Py.strip (stdout (fc_scan E obj_bytes))) ""); simpl.
    { repeat split; done. }
    split.
    { apply strip_all_chars.
      pose proof (splitlines_clean (stdout (fc_scan E obj_bytes))) as Hall.
      destruct (Py.splitlines (stdout (fc_scan E obj_bytes))); [done|].
      by inversion Hall. }
    split; [apply strip_idemp|]. split; [done|]. intros _ H. by destruct H.
Qed.
